(** * Transcript normalisation: the three adapters of disruption-intel

    A shallow embedding of

      - [src/api/transcript.py]            (module [Api]:     serverless function),
      - [src/scripts/fetch-transcript.py]  (module [Script]:  command line),
      - [src/transcript-service/app.py]    (module [Service]: Flask service),

    over a small model of the Python values and builtins they use (module
    [Py]).  The external captions library is the injected fetch capability:
    a function of the video id and of the state of the outside world.

    Conventions.
      - A call returns, raises an exception derived from [Exception], or
        raises one that is not ([res]); [except Exception] catches the
        former only ([try_except]).  The adapters are defined over every
        fetch function ([fetch_fn]); a [capability] is one whose failures
        derive from [Exception], as the captions library's own do.
      - A run threads the state of the world and a log of the invocations
        of the capability, so that "not invoked" and "no hidden state" are
        statements about that state.
      - A response body is the object handed to [json.dumps] or [jsonify];
        the serialiser and the HTTP framing belong to the libraries.
      - What a library call makes of a request is part of the request:
        [request.get_json()] for the Flask view, and for the serverless
        handlers ([Api.handler_do_GET], [Api.handler_do_POST]) the outcome
        of [parse_qs(urlparse(self.path).query)] and of [int] on the
        Content-Length header.  [Api.do_GET] and [Api.do_POST] are these
        handlers on a request whose target parsed, whose Content-Length is
        absent or a natural number, and with a [json.loads] that fails
        with [JSONDecodeError] only.
      - [Script] and [Service] import the captions library unconditionally:
        their model starts once the import has succeeded.  [Api] guards the
        import and records the outcome in [HAS_TRANSCRIPT_API]. *)

From Stdlib Require Import List NArith ZArith Bool String Ascii Lia Floats.
From Stdlib Require Import DecimalString.
Import ListNotations.

Set Implicit Arguments.

(* ================================================================== *)
(** * Python values and builtins *)
(* ================================================================== *)

Module Py.

(** A Python [str] is a sequence of Unicode code points. *)
Definition char := N.
Definition str := list char.

(** A literal of the source, written as a Rocq string of ASCII characters. *)
Definition lit (s : string) : str := map N_of_ascii (list_ascii_of_string s).

Fixpoint str_eqb (a b : str) : bool :=
  match a, b with
  | [], [] => true
  | x :: a', y :: b' => N.eqb x y && str_eqb a' b'
  | _, _ => false
  end.

(** [len(s) == 0], the falsity of a string. *)
Definition is_empty (s : str) : bool :=
  match s with [] => true | _ :: _ => false end.

(** [ch.isspace()] for one code point: the ASCII table of CPython
    (TAB..CR, FS..US, SPACE) and the White_Space / bidirectional WS, B, S
    code points above it. *)
Definition isspace (c : char) : bool :=
  ((9 <=? c) && (c <=? 13) || (28 <=? c) && (c <=? 32)
   || (c =? 133) || (c =? 160) || (c =? 5760)
   || (8192 <=? c) && (c <=? 8202)
   || (c =? 8232) || (c =? 8233) || (c =? 8239) || (c =? 8287)
   || (c =? 12288))%N.

(** [sep.join(parts)] on strings. *)
Fixpoint join (sep : str) (parts : list str) : str :=
  match parts with
  | [] => []
  | [p] => p
  | p :: rest => p ++ sep ++ join sep rest
  end.

(** [s.split()] with no separator.  CPython scans left to right with two
    loops: skip a run of whitespace, then collect a run of non-whitespace
    and append it.  [cur] is the token being collected, reversed ([None]
    while skipping). *)
Fixpoint split_from (cur : option str) (s : str) : list str :=
  match s with
  | [] => match cur with None => [] | Some t => [rev t] end
  | c :: s' =>
      if isspace c then
        match cur with
        | None => split_from None s'
        | Some t => rev t :: split_from None s'
        end
      else
        match cur with
        | None => split_from (Some [c]) s'
        | Some t => split_from (Some (c :: t)) s'
        end
  end.

Definition split (s : str) : list str := split_from None s.

(** The values the adapters handle: what [json.loads] produces and
    [json.dumps] accepts.  A dict keeps its items in insertion order, which
    is the order [json.dumps] writes them in; the dicts built here have
    distinct keys, and a lookup takes the first item under a key. *)
#[local] Unset Elimination Schemes.
Inductive value : Type :=
| VNone
| VBool (b : bool)
| VInt (z : Z)
| VFloat (f : float)
| VStr (s : str)
| VList (l : list value)
| VDict (d : list (str * value)).
#[local] Set Elimination Schemes.

Definition dict := list (str * value).

(** The item of [d] under the key [k], if there is one. *)
Fixpoint dict_lookup (k : str) (d : dict) : option value :=
  match d with
  | [] => None
  | (k', v) :: d' => if str_eqb k k' then Some v else dict_lookup k d'
  end.

(** [d.get(k)]: the item under [k], or [None]. *)
Definition dict_get (k : str) (d : dict) : value :=
  match dict_lookup k d with
  | Some v => v
  | None => VNone
  end.

(** Truth value of an object, as [if x] and [not x] test it. *)
Definition truthy (v : value) : bool :=
  match v with
  | VNone => false
  | VBool b => b
  | VInt z => negb (Z.eqb z 0)
  | VFloat f => negb (PrimFloat.eqb f 0%float)
  | VStr s => negb (is_empty s)
  | VList l => match l with [] => false | _ => true end
  | VDict d => match d with [] => false | _ => true end
  end.

(** An exception object [e] derived from [Exception], by what the source
    reads of it: [type(e).__name__] and [str(e)]. *)
Record Exception : Type := mkException
  { type_name : str;
    message : str }.

(** An exception object that is not derived from [Exception]:
    [SystemExit] with its code, [KeyboardInterrupt], [GeneratorExit], or
    an instance of another class derived from [BaseException] alone, by
    its name and message. *)
Inductive BaseException : Type :=
| SystemExit (code : value)
| KeyboardInterrupt
| GeneratorExit
| BaseSubclass (name text : str).

(** How a call ends: it returns, it raises an exception derived from
    [Exception], or it raises one that is not. *)
Inductive res (A : Type) : Type :=
| Ok (a : A)
| Raise (e : Exception)
| RaiseBase (b : BaseException).
Arguments Ok {A} a.
Arguments Raise {A} e.
Arguments RaiseBase {A} b.

(** ** Builtins that can raise *)

(** [type(v).__name__]. *)
Definition type_name_of (v : value) : str :=
  match v with
  | VNone => lit "NoneType"
  | VBool _ => lit "bool"
  | VInt _ => lit "int"
  | VFloat _ => lit "float"
  | VStr _ => lit "str"
  | VList _ => lit "list"
  | VDict _ => lit "dict"
  end.

Definition decimal (n : nat) : str := lit (NilEmpty.string_of_uint (Nat.to_uint n)).

Definition KeyError (k : str) : Exception :=
  mkException (lit "KeyError") (lit "'" ++ k ++ lit "'").
Definition TypeError (msg : str) : Exception :=
  mkException (lit "TypeError") msg.
Definition ValueError (msg : str) : Exception :=
  mkException (lit "ValueError") msg.
Definition AttributeError (v : value) (attr : string) : Exception :=
  mkException (lit "AttributeError")
    (lit "'" ++ type_name_of v ++ lit "' object has no attribute '" ++ lit attr ++ lit "'").

(** [v[k]] with a string key: a dict gives the item or [KeyError]; the
    other values do not take a string subscript. *)
Definition subscript (v : value) (k : str) : res value :=
  match v with
  | VDict d =>
      match dict_lookup k d with
      | Some x => Ok x
      | None => Raise (KeyError k)
      end
  | _ => Raise (TypeError (lit "'" ++ type_name_of v ++ lit "' object is not subscriptable"))
  end.

(** [sep.join(items)] on a list of objects: every item must be a [str]. *)
Fixpoint texts_of (i : nat) (items : list value) : res (list str) :=
  match items with
  | [] => Ok []
  | VStr s :: rest =>
      match texts_of (S i) rest with
      | Ok ss => Ok (s :: ss)
      | Raise e => Raise e
      | RaiseBase b => RaiseBase b
      end
  | v :: _ =>
      Raise (TypeError (lit "sequence item " ++ decimal i ++ lit ": expected str instance, "
                        ++ type_name_of v ++ lit " found"))
  end.

Definition str_join (sep : str) (items : list value) : res str :=
  match texts_of 0 items with
  | Ok ss => Ok (join sep ss)
  | Raise e => Raise e
  | RaiseBase b => RaiseBase b
  end.

(** [v.get(k)] on an object: only a dict has the method. *)
Definition value_get (v : value) (k : str) : res value :=
  match v with
  | VDict d => Ok (dict_get k d)
  | _ => Raise (AttributeError v "get")
  end.

(** [b.decode()]: strict UTF-8.  Overlong forms, surrogates and code
    points above U+10FFFF are refused, as are truncated sequences. *)
Definition continuation (b : N) : bool := ((128 <=? b) && (b <=? 191))%N.

Fixpoint utf8_decode (bs : list N) : option str :=
  match bs with
  | [] => Some []
  | b0 :: r0 =>
      if (b0 <? 128)%N then option_map (cons b0) (utf8_decode r0)
      else if ((194 <=? b0) && (b0 <=? 223))%N then
        match r0 with
        | b1 :: r1 =>
            if continuation b1
            then option_map (cons ((b0 - 192) * 64 + (b1 - 128))%N) (utf8_decode r1)
            else None
        | _ => None
        end
      else if ((224 <=? b0) && (b0 <=? 239))%N then
        match r0 with
        | b1 :: b2 :: r2 =>
            if ((if b0 =? 224 then 160 else 128) <=? b1)%N
               && (b1 <=? (if b0 =? 237 then 159 else 191))%N
               && continuation b2
            then option_map
                   (cons ((b0 - 224) * 4096 + (b1 - 128) * 64 + (b2 - 128))%N)
                   (utf8_decode r2)
            else None
        | _ => None
        end
      else if ((240 <=? b0) && (b0 <=? 244))%N then
        match r0 with
        | b1 :: b2 :: b3 :: r3 =>
            if ((if b0 =? 240 then 144 else 128) <=? b1)%N
               && (b1 <=? (if b0 =? 244 then 143 else 191))%N
               && continuation b2 && continuation b3
            then option_map
                   (cons ((b0 - 240) * 262144 + (b1 - 128) * 4096
                          + (b2 - 128) * 64 + (b3 - 128))%N)
                   (utf8_decode r3)
            else None
        | _ => None
        end
      else None
  end.

(** [json.JSONDecodeError], and the test [except json.JSONDecodeError]
    makes of an exception (its class, told by name). *)
Definition JSONDecodeError (msg : str) : Exception :=
  mkException (lit "JSONDecodeError") msg.

Definition is_JSONDecodeError (e : Exception) : bool :=
  str_eqb (type_name e) (lit "JSONDecodeError").

(** The message of the real exception also names the offending byte and
    its position; nothing in the adapters reads it. *)
Definition UnicodeDecodeError : Exception :=
  mkException (lit "UnicodeDecodeError") (lit "'utf-8' codec can't decode byte").

Definition decode (b : list Byte.byte) : res str :=
  match utf8_decode (map Byte.to_N b) with
  | Some s => Ok s
  | None => Raise UnicodeDecodeError
  end.

(** [len(l)] as a Python int. *)
Definition len {A : Type} (l : list A) : value := VInt (Z.of_nat (List.length l)).

(** ** The world outside and the fetch capability *)

(** One caption entry as the library yields it: an object with the
    attributes [start], [duration] and [text]. *)
Record entry : Type := mkEntry
  { start : float;
    duration : float;
    text : str }.

Section Effects.

(** The state of everything outside the program (network, video host). *)
Variable World : Type.

(** [YouTubeTranscriptApi().fetch(video_id)], iterated: it returns the
    entries in order or raises, and may change the world. *)
Definition fetch_fn : Type := value -> World -> res (list entry) * World.

(** The fetch capability: a fetch whose failures are exceptions derived
    from [Exception]. *)
Record capability : Type := mkCapability
  { fetch :> fetch_fn;
    fetch_raises_Exception :
      forall video_id w,
        match fst (fetch video_id w) with
        | RaiseBase _ => False
        | _ => True
        end }.

(** What a run threads through: the world, and the log of the
    identifiers the capability was invoked on, oldest first. *)
Record state : Type := mkState
  { world : World;
    calls : list value }.

Definition M (A : Type) : Type := state -> res A * state.

Definition ret {A : Type} (a : A) : M A := fun st => (Ok a, st).

Definition lift {A : Type} (r : res A) : M A := fun st => (r, st).

Definition bind {A B : Type} (m : M A) (k : A -> M B) : M B :=
  fun st =>
    match m st with
    | (Ok a, st') => k a st'
    | (Raise e, st') => (Raise e, st')
    | (RaiseBase b, st') => (RaiseBase b, st')
    end.

(** [try: body  except Exception as e: handler(e)]: an exception that is
    not derived from [Exception] passes through. *)
Definition try_except {A : Type} (body : M A) (handler : Exception -> M A) : M A :=
  fun st =>
    match body st with
    | (Ok a, st') => (Ok a, st')
    | (Raise e, st') => handler e st'
    | (RaiseBase b, st') => (RaiseBase b, st')
    end.

(** [try: body  except C: handler()] for a class [C] derived from
    [Exception], [is_C] telling its instances. *)
Definition try_except_class {A : Type} (is_C : Exception -> bool)
    (body : M A) (handler : M A) : M A :=
  fun st =>
    match body st with
    | (Raise e, st') => if is_C e then handler st' else (Raise e, st')
    | other => other
    end.

(** A list comprehension whose element expression can raise. *)
Fixpoint comprehension {A B : Type} (f : A -> M B) (l : list A) : M (list B) :=
  match l with
  | [] => ret []
  | a :: l' => bind (f a) (fun b => bind (comprehension f l') (fun bs => ret (b :: bs)))
  end.

Definition api_fetch (api : fetch_fn) (video_id : value) : M (list entry) :=
  fun st =>
    let (r, w) := api video_id (world st) in
    (r, {| world := w; calls := calls st ++ [video_id] |}).

End Effects.

Arguments ret {World A} a.
Arguments lift {World A} r.
Arguments bind {World A B} m k.
Arguments try_except {World A} body handler.
Arguments try_except_class {World A} is_C body handler.
Arguments mkCapability {World} fetch fetch_raises_Exception.
Arguments fetch {World} c.
Arguments fetch_raises_Exception {World} c video_id w.
Arguments comprehension {World A B} f l.
Arguments api_fetch {World} api video_id.
Arguments mkState {World} world calls.
Arguments world {World} s.
Arguments calls {World} s.

Identity Coercion fetch_fn_function : fetch_fn >-> Funclass.


End Py.
Import Py.

Declare Scope py_scope.
Notation "x <- m ;; k" := (bind m (fun x => k))
  (at level 61, m at next level, right associativity) : py_scope.
Open Scope py_scope.


(* ================================================================== *)
(** * api/transcript.py: the serverless function *)
(* ================================================================== *)

Module Api.

Section Function.

Variable World : Type.

(** Module state after import: whether [youtube_transcript_api] loaded. *)
Variable HAS_TRANSCRIPT_API : bool.

(** The library's fetch, when it loaded. *)
Variable api : fetch_fn World.

Definition fetch_transcript (video_id : value) : M World dict :=
  if negb HAS_TRANSCRIPT_API then
    ret [ (lit "success", VBool false);
          (lit "error", VStr (lit "youtube-transcript-api not installed"));
          (lit "errorType", VStr (lit "ImportError")) ]
  else
    try_except
      (transcript <- api_fetch api video_id ;;
       let segments :=
         fold_left
           (fun segments entry =>
              segments ++ [ VDict [ (lit "start", VFloat (start entry));
                                    (lit "duration", VFloat (duration entry));
                                    (lit "text", VStr (text entry)) ] ])
           transcript [] in
       texts <- comprehension (fun s => lift (subscript s (lit "text"))) segments ;;
       full_text <- lift (str_join (lit " ") texts) ;;
       let word_count := len (split full_text) in
       ret [ (lit "success", VBool true);
             (lit "videoId", video_id);
             (lit "segments", VList segments);
             (lit "fullText", VStr full_text);
             (lit "wordCount", word_count);
             (lit "language", VStr (lit "en"));
             (lit "source", VStr (lit "youtube_auto")) ])
      (fun e =>
         ret [ (lit "success", VBool false);
               (lit "videoId", video_id);
               (lit "error", VStr (message e));
               (lit "errorType", VStr (type_name e)) ]).

(** ** class handler(BaseHTTPRequestHandler) *)

(** What a handler writes: the status line, the headers sent before
    [end_headers()], and the object whose [json.dumps(...).encode()] is
    written as the body. *)
Record response : Type := mkResponse
  { status : Z;
    headers : list (str * str);
    body : value }.

(** [parse_qs(urlparse(self.path).query)]: a dict from each parameter
    name present to its values, of which there is at least one. *)
Definition query : Type := list (str * (str * list str)).

Fixpoint params_lookup (k : str) (params : query) : option (str * list str) :=
  match params with
  | [] => None
  | (k', vs) :: rest => if str_eqb k k' then Some vs else params_lookup k rest
  end.

(** [params.get(k, [None])[0]]. *)
Definition params_first (k : str) (params : query) : value :=
  match params_lookup k params with
  | Some (v, _) => VStr v
  | None => VNone
  end.

(** [do_GET] from line 66, on the dict [params] that line 64 got from
    the request target; [handler_do_GET] below starts at line 63, where
    [urlparse] may refuse the target. *)
Definition do_GET (params : query) : M World response :=
  let video_id := params_first (lit "videoId") params in
  if negb (truthy video_id) then
    ret {| status := 400;
           headers := [ (lit "Content-Type", lit "application/json") ];
           body := VDict [ (lit "success", VBool false);
                           (lit "error", VStr (lit "videoId parameter required")) ] |}
  else
    result <- fetch_transcript video_id ;;
    let status := (if truthy (dict_get (lit "success") result) then 200 else 400)%Z in
    ret {| status := status;
           headers := [ (lit "Content-Type", lit "application/json");
                        (lit "Access-Control-Allow-Origin", lit "*") ];
           body := VDict result |}.

(** A POST request whose Content-Length header is absent or a natural
    number, and the bytes that follow the headers.  [raw_post_request]
    below has the other headers: a negative number, a value [int]
    refuses. *)
Record post_request : Type := mkPost
  { content_length : option N;
    rfile : list Byte.byte }.

(** A [json.loads] that returns the parsed value or raises
    [json.JSONDecodeError] ([None] here) and nothing else;
    [handler_do_POST] below takes any. *)
Variable json_loads : str -> option value.

(** [do_POST] on such a request and parser. *)

Definition do_POST (req : post_request) : M World response :=
  let content_length := match content_length req with Some n => n | None => 0%N end in
  body <- lift (decode (firstn (N.to_nat content_length) (rfile req))) ;;
  let data :=
    if negb (is_empty body) then
      match json_loads body with
      | Some v => v
      | None => VDict []
      end
    else VDict [] in
  video_id <- lift (value_get data (lit "videoId")) ;;
  if negb (truthy video_id) then
    ret {| status := 400;
           headers := [ (lit "Content-Type", lit "application/json") ];
           body := VDict [ (lit "success", VBool false);
                           (lit "error", VStr (lit "videoId required in request body")) ] |}
  else
    result <- fetch_transcript video_id ;;
    let status := (if truthy (dict_get (lit "success") result) then 200 else 400)%Z in
    ret {| status := status;
           headers := [ (lit "Content-Type", lit "application/json");
                        (lit "Access-Control-Allow-Origin", lit "*") ];
           body := VDict result |}.

End Function.

(** ** The handlers on a request as it arrives *)

(** A POST request as it arrives: what [int] makes of the
    Content-Length header (absent, a number, or the [ValueError] of a
    value it refuses), and the bytes that follow the headers. *)
Record raw_post_request : Type := mkRawPost
  { content_length_header : option (res Z);
    stream : list Byte.byte }.

(** [self.rfile.read(n)]: [n] bytes, or all of them for a negative [n]. *)
Definition read (n : Z) (stream : list Byte.byte) : list Byte.byte :=
  if (n <? 0)%Z then stream else firstn (Z.to_nat n) stream.

Section Handler.

Variable World : Type.
Variable HAS_TRANSCRIPT_API : bool.
Variable api : fetch_fn World.

(** [do_GET] from line 63: [parsed] is how
    [parse_qs(urlparse(self.path).query)] ends on the request target,
    with the dict or with the [ValueError] of a target [urlparse]
    refuses. *)
Definition handler_do_GET (parsed : res query) : M World response :=
  params <- lift parsed ;;
  do_GET HAS_TRANSCRIPT_API api params.

(** [json.loads] of the standard library, however it ends. *)
Variable json_loads : str -> res value.

(** [do_POST] from line 89. *)
Definition handler_do_POST (req : raw_post_request) : M World response :=
  content_length <-
    lift (match content_length_header req with
          | Some n => n
          | None => Ok 0%Z
          end) ;;
  body <- lift (decode (read content_length (stream req))) ;;
  data <-
    try_except_class is_JSONDecodeError
      (if negb (is_empty body) then lift (json_loads body) else ret (VDict []))
      (ret (VDict [])) ;;
  video_id <- lift (value_get data (lit "videoId")) ;;
  if negb (truthy video_id) then
    ret {| status := 400;
           headers := [ (lit "Content-Type", lit "application/json") ];
           body := VDict [ (lit "success", VBool false);
                           (lit "error", VStr (lit "videoId required in request body")) ] |}
  else
    result <- fetch_transcript HAS_TRANSCRIPT_API api video_id ;;
    let status := (if truthy (dict_get (lit "success") result) then 200 else 400)%Z in
    ret {| status := status;
           headers := [ (lit "Content-Type", lit "application/json");
                        (lit "Access-Control-Allow-Origin", lit "*") ];
           body := VDict result |}.

End Handler.

(** A request of [do_POST] as a request of [handler_do_POST], and a
    [json.loads] that fails with [JSONDecodeError] only. *)
Definition as_raw (req : post_request) : raw_post_request :=
  {| content_length_header :=
       match content_length req with
       | Some n => Some (Ok (Z.of_N n))
       | None => None
       end;
     stream := rfile req |}.

Definition loads_or_JSONDecodeError (json_loads : str -> option value) (s : str) : res value :=
  match json_loads s with
  | Some v => Ok v
  | None => Raise (JSONDecodeError (lit "Expecting value"))
  end.

End Api.

(* ================================================================== *)
(** * scripts/fetch-transcript.py: the command line *)
(* ================================================================== *)

Module Script.

Section Program.

Variable World : Type.
Variable api : fetch_fn World.

Definition fetch_transcript (video_id : value) : M World dict :=
  try_except
    (transcript <- api_fetch api video_id ;;
     let segments :=
       fold_left
         (fun segments entry =>
            segments ++ [ VDict [ (lit "start", VFloat (start entry));
                                  (lit "duration", VFloat (duration entry));
                                  (lit "text", VStr (text entry)) ] ])
         transcript [] in
     texts <- comprehension (fun s => lift (subscript s (lit "text"))) segments ;;
     full_text <- lift (str_join (lit " ") texts) ;;
     let word_count := len (split full_text) in
     ret [ (lit "success", VBool true);
           (lit "videoId", video_id);
           (lit "segments", VList segments);
           (lit "fullText", VStr full_text);
           (lit "wordCount", word_count);
           (lit "language", VStr (lit "en"));
           (lit "source", VStr (lit "youtube_auto")) ])
    (fun e =>
       ret [ (lit "success", VBool false);
             (lit "videoId", video_id);
             (lit "error", VStr (message e));
             (lit "errorType", VStr (type_name e)) ]).

(** How the process ends: the objects whose [json.dumps] was printed,
    one per line, and the exit code. *)
Record process : Type := mkProcess
  { stdout : list value;
    exit_code : Z }.

(** The [__main__] block on [sys.argv]. *)
Definition main (argv : list str) : M World process :=
  if (List.length argv <? 2)%nat then
    ret {| stdout := [ VDict [ (lit "success", VBool false);
                               (lit "error", VStr (lit "Video ID required")) ] ];
           exit_code := 1 |}
  else
    let video_id := VStr (nth 1 argv []) in
    result <- fetch_transcript video_id ;;
    ret {| stdout := [ VDict result ]; exit_code := 0 |}.

(** The status the interpreter ends the process with when the top
    level raises an exception that is not derived from [Exception]:
    the code of [SystemExit] (none is 0, an int counts modulo 256,
    anything else is printed to stderr and gives 1), 130 for
    [KeyboardInterrupt] (the process ends through SIGINT), and 1 after
    the traceback of any other one. *)
Definition exit_status (b : BaseException) : Z :=
  match b with
  | SystemExit VNone => 0
  | SystemExit (VInt n) => Z.land n 255
  | SystemExit (VBool b) => if b then 1 else 0
  | SystemExit _ => 1
  | KeyboardInterrupt => 130
  | _ => 1
  end.

(** The script run as a process: what [main] printed and its exit code
    when it returns; when it raises, nothing of it reached stdout (its
    only [print] is its last statement), and the status is 1 after the
    traceback or [exit_status]. *)
Definition run (argv : list str) (st : state World) : process * state World :=
  match main argv st with
  | (Ok out, st') => (out, st')
  | (Raise e, st') => ({| stdout := []; exit_code := 1 |}, st')
  | (RaiseBase b, st') => ({| stdout := []; exit_code := exit_status b |}, st')
  end.

End Program.

End Script.

(* ================================================================== *)
(** * transcript-service/app.py: the Flask service *)
(* ================================================================== *)

Module Service.

(** The methods under which Flask calls a view routed for GET and POST
    (it adds HEAD to GET; OPTIONS it answers itself). *)
Inductive http_method : Type := GET | HEAD | POST.

(** The request object as the view reads it: [request.method],
    [request.args] as its (name, value) pairs in order, and how
    [request.get_json()] ends. *)
Record request : Type := mkRequest
  { method : http_method;
    args : list (str * str);
    get_json : res value }.

(** What a view returns: the object given to [jsonify] and the status
    (200 when the view returns the response alone). *)
Record response : Type := mkResponse
  { status : Z;
    body : value }.

(** [request.args.get(k)]: the first value of [k], or [None]. *)
Fixpoint args_get (k : str) (a : list (str * str)) : value :=
  match a with
  | [] => VNone
  | (k', v) :: rest => if str_eqb k k' then VStr v else args_get k rest
  end.

(** The identifier the view reads from the request (its first statement):
    the JSON body's field for POST, the query parameter otherwise. *)
Definition requested_id (request : request) : res value :=
  match method request with
  | POST =>
      match get_json request with
      | Ok json => value_get (if truthy json then json else VDict []) (lit "videoId")
      | Raise e => Raise e
      | RaiseBase b => RaiseBase b
      end
  | _ => Ok (args_get (lit "videoId") (args request))
  end.

Definition health : response :=
  {| status := 200;
     body := VDict [ (lit "status", VStr (lit "ok"));
                     (lit "service", VStr (lit "transcript-service")) ] |}.

Section View.

Variable World : Type.
Variable api : fetch_fn World.

Definition get_transcript (request : request) : M World response :=
  video_id <-
    match method request with
    | POST =>
        json <- lift (get_json request) ;;
        let data := if truthy json then json else VDict [] in
        lift (value_get data (lit "videoId"))
    | _ => ret (args_get (lit "videoId") (args request))
    end ;;
  if negb (truthy video_id) then
    ret {| status := 400;
           body := VDict [ (lit "success", VBool false);
                           (lit "error", VStr (lit "videoId parameter required")) ] |}
  else
    try_except
      (transcript <- api_fetch api video_id ;;
       let segments :=
         fold_left
           (fun segments entry =>
              segments ++ [ VDict [ (lit "start", VFloat (start entry));
                                    (lit "duration", VFloat (duration entry));
                                    (lit "text", VStr (text entry)) ] ])
           transcript [] in
       texts <- comprehension (fun s => lift (subscript s (lit "text"))) segments ;;
       full_text <- lift (str_join (lit " ") texts) ;;
       let word_count := len (split full_text) in
       ret {| status := 200;
              body := VDict [ (lit "success", VBool true);
                              (lit "videoId", video_id);
                              (lit "segments", VList segments);
                              (lit "fullText", VStr full_text);
                              (lit "wordCount", word_count);
                              (lit "language", VStr (lit "en"));
                              (lit "source", VStr (lit "youtube_auto")) ] |})
      (fun e =>
         ret {| status := 400;
                body := VDict [ (lit "success", VBool false);
                                (lit "videoId", video_id);
                                (lit "error", VStr (message e));
                                (lit "errorType", VStr (type_name e)) ] |}).

End View.

End Service.

(* ================================================================== *)
(** * The contract, in the words of the specification *)
(* ================================================================== *)

Module Spec.

(** TranscriptSegment: [{start, duration, text}] of one entry, unchanged. *)
Definition segment (e : entry) : value :=
  VDict [ (lit "start", VFloat (start e));
          (lit "duration", VFloat (duration e));
          (lit "text", VStr (text e)) ].

(** The pieces of [s] between whitespace characters, empty ones included. *)
Fixpoint fields (s : str) : list str :=
  match s with
  | [] => [[]]
  | c :: s' =>
      if isspace c then [] :: fields s'
      else match fields s' with
           | f :: fs => (c :: f) :: fs
           | [] => [[c]]
           end
  end.

(** The whitespace-delimited tokens: the pieces that are not empty. *)
Definition tokens (s : str) : list str :=
  filter (fun f => negb (is_empty f)) (fields s).

Definition token_count (s : str) : Z := Z.of_nat (List.length (tokens s)).

(** fullText: the texts joined by one ASCII space. *)
Definition full_text (entries : list entry) : str :=
  join [32%N] (map text entries).

(** TranscriptResult for the entries a fetch returned. *)
Definition TranscriptResult (video_id : value) (entries : list entry) : dict :=
  [ (lit "success", VBool true);
    (lit "videoId", video_id);
    (lit "segments", VList (map segment entries));
    (lit "fullText", VStr (full_text entries));
    (lit "wordCount", VInt (token_count (full_text entries)));
    (lit "language", VStr (lit "en"));
    (lit "source", VStr (lit "youtube_auto")) ].

(** TranscriptError for a fetch that raised [e]. *)
Definition TranscriptError (video_id : value) (e : Exception) : dict :=
  [ (lit "success", VBool false);
    (lit "videoId", video_id);
    (lit "error", VStr (message e));
    (lit "errorType", VStr (type_name e)) ].

(** A capability whose answer does not depend on the state of the world. *)
Definition deterministic {World : Type} (api : capability World) : Prop :=
  forall video_id w1 w2, fst (api video_id w1) = fst (api video_id w2).

(** The [success] field of a JSON body. *)
Definition success (body : value) : value :=
  match body with
  | VDict d => dict_get (lit "success") d
  | _ => VNone
  end.

(** The state one invocation of the capability on [video_id] leaves. *)
Definition after_fetch {World : Type} (st : state World) (video_id : value) (w : World)
  : state World :=
  {| world := w; calls := calls st ++ [video_id] |}.

End Spec.

(** ** Stub capabilities and requests of the scenarios *)

Module Scenario.

Definition abc123 : value := VStr (lit "abc123").

(** The stub of the end-to-end scenario: two entries, whatever the world. *)
Definition hello_world : capability unit :=
  {| fetch := fun _ w =>
       (Ok [ mkEntry 0%float 2.5%float (lit "Hello");
             mkEntry 2.5%float 1%float (lit "world") ], w);
     fetch_raises_Exception := fun _ _ => I |}.

(** A stub that always fails with message ["X"] and class name ["Y"]. *)
Definition failing : capability unit :=
  {| fetch := fun _ w => (Raise (mkException (lit "Y") (lit "X")), w);
     fetch_raises_Exception := fun _ _ => I |}.

(** A fetch interrupted from the keyboard (Ctrl-C while it waits). *)
Definition interrupted : fetch_fn unit :=
  fun _ w => (RaiseBase KeyboardInterrupt, w).

(** A fetch that calls [sys.exit(1)]. *)
Definition exiting : fetch_fn unit :=
  fun _ w => (RaiseBase (SystemExit (VInt 1)), w).

Definition start_state : state unit := {| world := tt; calls := [] |}.

(** A stub over a world that changes: it counts its invocations, and
    answers the same entries each time. *)
Definition counting : capability nat :=
  {| fetch := fun _ n => (Ok [ mkEntry 0%float 2.5%float (lit "Hello") ], S n);
     fetch_raises_Exception := fun _ _ => I |}.

Definition get_abc123 : Service.request :=
  {| Service.method := Service.GET;
     Service.args := [ (lit "videoId", lit "abc123") ];
     Service.get_json := Ok VNone |}.

Definition get_no_id : Service.request :=
  {| Service.method := Service.GET;
     Service.args := [];
     Service.get_json := Ok VNone |}.

(** POST with the JSON body [[1]]. *)
Definition post_array : Service.request :=
  {| Service.method := Service.POST;
     Service.args := [];
     Service.get_json := Ok (VList [VInt 1]) |}.

(** POST with [Content-Length: 1] and the single body byte 0xFF. *)
Definition post_byte_ff : Api.post_request :=
  {| Api.content_length := Some 1%N;
     Api.rfile := [ Byte.xff ] |}.

End Scenario.

(** ** Requests and a stand-in parser for the handlers' examples *)

Module Fixture.

Definition quoted (s : string) : str := (34 :: lit s ++ [34])%N.

(** The text [{"videoId": "abc123"}]. *)
Definition body_abc : str :=
  lit "{" ++ quoted "videoId" ++ lit ": " ++ quoted "abc123" ++ lit "}".

(** The text [{"videoId": 123}]. *)
Definition body_number : str := lit "{" ++ quoted "videoId" ++ lit ": 123}".

(** The text [{"videoId": ""}]. *)
Definition body_empty_id : str :=
  lit "{" ++ quoted "videoId" ++ lit ": " ++ quoted "" ++ lit "}".

(** A stand-in for [json.loads] that knows these texts, [{}] and [[1]],
    and refuses every other one. *)
Definition loads (s : str) : option value :=
  if str_eqb s body_abc then Some (VDict [ (lit "videoId", VStr (lit "abc123")) ])
  else if str_eqb s body_number then Some (VDict [ (lit "videoId", VInt 123) ])
  else if str_eqb s body_empty_id then Some (VDict [ (lit "videoId", VStr []) ])
  else if str_eqb s (lit "{}") then Some (VDict [])
  else if str_eqb s (lit "[1]") then Some (VList [VInt 1])
  else None.

(** The bytes of an ASCII text. *)
Definition ascii_bytes (s : str) : list Byte.byte :=
  map (fun c => match Byte.of_N c with Some b => b | None => Byte.x00 end) s.

(** A POST request carrying the ASCII text [s], with its Content-Length. *)
Definition post (s : str) : Api.post_request :=
  {| Api.content_length := Some (N.of_nat (List.length s));
     Api.rfile := ascii_bytes s |}.

(** The query [?videoId=abc123]. *)
Definition params_abc : Api.query := [ (lit "videoId", (lit "abc123", [])) ].

(** POST /transcript with the JSON body [{"videoId": "abc123"}]. *)
Definition service_post_abc : Service.request :=
  {| Service.method := Service.POST;
     Service.args := [];
     Service.get_json := Ok (VDict [ (lit "videoId", VStr (lit "abc123")) ]) |}.

(** POST /transcript with the JSON body [null]. *)
Definition service_post_null : Service.request :=
  {| Service.method := Service.POST;
     Service.args := [];
     Service.get_json := Ok VNone |}.

(** POST with the header [Content-Length: abc], which [int] refuses. *)
Definition post_bad_length : Api.raw_post_request :=
  {| Api.content_length_header :=
       Some (Raise (ValueError (lit "invalid literal for int() with base 10: 'abc'")));
     Api.stream := ascii_bytes body_abc |}.

(** POST with the header [Content-Length: -1] and the body
    [{"videoId": "abc123"}]. *)
Definition post_negative_length : Api.raw_post_request :=
  {| Api.content_length_header := Some (Ok (-1)%Z);
     Api.stream := ascii_bytes body_abc |}.

(** A [json.loads] that raises [RecursionError]. *)
Definition loads_too_deep (s : str) : res value :=
  Raise (mkException (lit "RecursionError")
           (lit "maximum recursion depth exceeded while decoding a JSON array"
                ++ lit " from a unicode string")).

End Fixture.

(** ** What [do_POST] reads of a request (lines 89 to 95) *)

Module Reading.

(** [self.rfile.read(content_length)], the length defaulting to 0. *)
Definition body_bytes (req : Api.post_request) : list Byte.byte :=
  firstn (N.to_nat (match Api.content_length req with Some n => n | None => 0%N end))
         (Api.rfile req).

(** [data]: the parsed body, or [{}] for an empty or refused one. *)
Definition data_of (json_loads : str -> option value) (body : str) : value :=
  if negb (is_empty body) then
    match json_loads body with
    | Some v => v
    | None => VDict []
    end
  else VDict [].

(** [content_length] as [handler_do_POST] computes it: what [int] makes
    of the header, 0 without one. *)
Definition length_of (req : Api.raw_post_request) : res Z :=
  match Api.content_length_header req with
  | Some n => n
  | None => Ok 0%Z
  end.

(** [data] after the [try] of lines 92 to 95, however [json.loads]
    ends: only a [JSONDecodeError] is turned into [{}]. *)
Definition data_after_try (json_loads : str -> res value) (body : str) : res value :=
  if negb (is_empty body) then
    match json_loads body with
    | Raise e => if is_JSONDecodeError e then Ok (VDict []) else Raise e
    | other => other
    end
  else Ok (VDict []).

(** What a handler does once it holds a truthy [video_id] (lines 78 to
    85 and 109 to 116). *)
Definition answer_for {World : Type} (HAS_TRANSCRIPT_API : bool) (api : fetch_fn World)
    (video_id : value) (st : state World) : res Api.response * state World :=
  match Api.fetch_transcript HAS_TRANSCRIPT_API api video_id st with
  | (Ok result, st') =>
      (Ok {| Api.status := if truthy (dict_get (lit "success") result) then 200 else 400;
             Api.headers := [ (lit "Content-Type", lit "application/json");
                              (lit "Access-Control-Allow-Origin", lit "*") ];
             Api.body := VDict result |},
       st')
  | (Raise e, st') => (Raise e, st')
  | (RaiseBase b, st') => (RaiseBase b, st')
  end.

End Reading.

(* ================================================================== *)
(** * Builtins: the loop, the comprehension, join and split *)
(* ================================================================== *)

Example split_two_words :
  split (lit "  Hello   world ") = [lit "Hello"; lit "world"].
Proof. reflexivity. Qed.

Example split_unicode_space :
  split ([72; 160; 105; 8232]%N) = [[72%N]; [105%N]].
Proof. reflexivity. Qed.

Example float_truthy :
  truthy (VFloat 2.5%float) = true /\ truthy (VFloat (-0)%float) = false.
Proof. split; reflexivity. Qed.

Example decode_examples :
  decode [Byte.x48; Byte.xc3; Byte.xa9] = Ok [72; 233]%N
  /\ decode [Byte.xff] = Raise UnicodeDecodeError
  /\ decode [Byte.xed; Byte.xa0; Byte.x80] = Raise UnicodeDecodeError
  /\ decode [Byte.xc0; Byte.x80] = Raise UnicodeDecodeError.
Proof. repeat split; reflexivity. Qed.

Section Builtins.

Variable World : Type.

(** The [for] loop that appends one dict per entry builds the mapped list. *)
Lemma append_loop (A B : Type) (f : A -> B) (l : list A) (acc : list B) :
  fold_left (fun acc a => acc ++ [f a]) l acc = acc ++ map f l.
Proof.
  revert acc; induction l as [|a l IH]; intro acc; simpl.
  - now rewrite app_nil_r.
  - rewrite IH, <- app_assoc. reflexivity.
Qed.

Lemma str_eqb_refl (a : str) : str_eqb a a = true.
Proof.
  induction a as [|x a IH]; simpl; [reflexivity|].
  now rewrite N.eqb_refl, IH.
Qed.

Lemma segment_text (e : entry) :
  subscript (Spec.segment e) (lit "text") = Ok (VStr (text e)).
Proof. reflexivity. Qed.

(** Reading ["text"] back from the segments neither raises nor touches
    the state. *)
Lemma comprehension_text (entries : list entry) (st : state World) :
  comprehension (fun s => lift (subscript s (lit "text"))) (map Spec.segment entries) st
  = (Ok (map (fun e => VStr (text e)) entries), st).
Proof.
  induction entries as [|e l IH]; [reflexivity|].
  cbn [map comprehension]. unfold bind at 1, lift at 1.
  rewrite segment_text. unfold bind at 1. rewrite IH. reflexivity.
Qed.

Lemma texts_of_strs (ss : list str) (i : nat) :
  texts_of i (map VStr ss) = Ok ss.
Proof.
  revert i; induction ss as [|s ss IH]; intro i; simpl; [reflexivity|].
  now rewrite IH.
Qed.

Lemma str_join_texts (sep : str) (entries : list entry) :
  str_join sep (map (fun e => VStr (text e)) entries) = Ok (join sep (map text entries)).
Proof.
  unfold str_join. rewrite <- (map_map text VStr), texts_of_strs. reflexivity.
Qed.

Lemma fields_nonempty (s : str) : Spec.fields s <> [].
Proof.
  destruct s as [|c s]; simpl; [discriminate|].
  destruct (isspace c); [discriminate|].
  destruct (Spec.fields s); discriminate.
Qed.

(** The scan of [split], started inside a token [t] or between tokens,
    against the pieces of the rest of the string. *)
Lemma split_from_fields (s : str) :
  split_from None s = Spec.tokens s
  /\ forall c t, exists f fs,
       Spec.fields s = f :: fs
       /\ split_from (Some (c :: t)) s
          = (rev (c :: t) ++ f) :: filter (fun f => negb (is_empty f)) fs.
Proof.
  unfold Spec.tokens.
  induction s as [|x s [IHn IHs]]; simpl.
  - split; [reflexivity|]. intros c t. exists [], []. now rewrite app_nil_r.
  - destruct (isspace x) eqn:Hx.
    + split.
      * simpl. exact IHn.
      * intros c t. exists [], (Spec.fields s). split; [reflexivity|].
        rewrite app_nil_r. now rewrite IHn.
    + split.
      * destruct (IHs x []) as (f & fs & Hf & Hsp). rewrite Hf, Hsp. reflexivity.
      * intros c t. destruct (IHs x (c :: t)) as (f & fs & Hf & Hsp).
        rewrite Hf. exists (x :: f), fs. split; [reflexivity|].
        rewrite Hsp. simpl. now rewrite <- !app_assoc.
Qed.

(** The pieces are delimited by whitespace: none contains any. *)
Lemma fields_no_space (s : str) :
  Forall (fun f => forallb (fun c => negb (isspace c)) f = true) (Spec.fields s).
Proof.
  induction s as [|c s IH]; simpl.
  - constructor; [reflexivity|constructor].
  - destruct (isspace c) eqn:Hc.
    + constructor; [reflexivity|exact IH].
    + destruct (Spec.fields s) as [|f fs]; [repeat constructor; simpl; now rewrite Hc|].
      inversion IH as [|? ? Hf Hfs]; subst.
      constructor; [simpl; now rewrite Hc, Hf|exact Hfs].
Qed.

(** Joining the pieces with the delimiters gives the string back, up to
    which whitespace character stood between them: the lengths add up. *)
Lemma fields_length (s : str) :
  (List.length (List.concat (Spec.fields s)) + List.length (Spec.fields s)
   = S (List.length s))%nat.
Proof.
  induction s as [|c s IH]; simpl; [reflexivity|].
  destruct (isspace c).
  - simpl. lia.
  - destruct (Spec.fields s) as [|f fs]; simpl in *; lia.
Qed.

(** A token is a piece that is not empty and holds no whitespace. *)
Lemma tokens_spec (s : str) (t : str) :
  In t (Spec.tokens s) ->
  t <> [] /\ forallb (fun c => negb (isspace c)) t = true /\ In t (Spec.fields s).
Proof.
  unfold Spec.tokens. intro H. apply filter_In in H as [Hin Hne].
  repeat split.
  - intros ->. discriminate Hne.
  - pose proof (fields_no_space s) as F. rewrite Forall_forall in F. now apply F.
  - exact Hin.
Qed.

(** [s.split()] is the list of the non-empty whitespace-delimited pieces. *)
Lemma split_tokens (s : str) : split s = Spec.tokens s.
Proof. exact (proj1 (split_from_fields s)). Qed.

Lemma len_split (s : str) : len (split s) = VInt (Spec.token_count s).
Proof. unfold len, Spec.token_count. now rewrite split_tokens. Qed.

End Builtins.

(* ================================================================== *)
(** * The normalisation, copy by copy *)
(* ================================================================== *)

(** Runs the body of the [try] block once the capability has answered. *)
Ltac run_try H :=
  unfold try_except; unfold bind at 1; unfold api_fetch; rewrite H;
  try (change (fold_left _ ?l []) with (fold_left (fun acc a => acc ++ [Spec.segment a]) l []);
       rewrite append_loop; cbn [app];
       unfold bind at 1; rewrite comprehension_text;
       unfold bind at 1, lift at 1; rewrite str_join_texts;
       rewrite len_split);
  reflexivity.

Section Normalisation.

Variable World : Type.
Variable api : fetch_fn World.

Implicit Types (video_id : value) (st : state World) (entries : list entry)
               (e : Exception) (b : BaseException) (w : World).

(** An exception that is not derived from [Exception] goes through the
    [try] of each copy. *)
Lemma api_propagates video_id st b w :
  api video_id (world st) = (RaiseBase b, w) ->
  Api.fetch_transcript true api video_id st
  = (RaiseBase b, Spec.after_fetch st video_id w).
Proof. intro H. unfold Api.fetch_transcript; cbn [negb]. run_try H. Qed.

Lemma script_propagates video_id st b w :
  api video_id (world st) = (RaiseBase b, w) ->
  Script.fetch_transcript api video_id st
  = (RaiseBase b, Spec.after_fetch st video_id w).
Proof. intro H. unfold Script.fetch_transcript. run_try H. Qed.

Lemma api_returns video_id st entries w :
  api video_id (world st) = (Ok entries, w) ->
  Api.fetch_transcript true api video_id st
  = (Ok (Spec.TranscriptResult video_id entries), Spec.after_fetch st video_id w).
Proof. intro H. unfold Api.fetch_transcript; cbn [negb]. run_try H. Qed.

Lemma api_raises video_id st e w :
  api video_id (world st) = (Raise e, w) ->
  Api.fetch_transcript true api video_id st
  = (Ok (Spec.TranscriptError video_id e), Spec.after_fetch st video_id w).
Proof. intro H. unfold Api.fetch_transcript; cbn [negb]. run_try H. Qed.

Lemma script_returns video_id st entries w :
  api video_id (world st) = (Ok entries, w) ->
  Script.fetch_transcript api video_id st
  = (Ok (Spec.TranscriptResult video_id entries), Spec.after_fetch st video_id w).
Proof. intro H. unfold Script.fetch_transcript. run_try H. Qed.

Lemma script_raises video_id st e w :
  api video_id (world st) = (Raise e, w) ->
  Script.fetch_transcript api video_id st
  = (Ok (Spec.TranscriptError video_id e), Spec.after_fetch st video_id w).
Proof. intro H. unfold Script.fetch_transcript. run_try H. Qed.

(** The view's first statement leaves [video_id] as [requested_id] says. *)
Ltac read_id H :=
  unfold Service.get_transcript; unfold Service.requested_id in H;
  unfold bind at 1;
  destruct (Service.method _);
  [ cbn [ret]; injection H as <-
  | cbn [ret]; injection H as <-
  | unfold bind at 1, lift at 1;
    destruct (Service.get_json _) as [json| |]; [|discriminate H|discriminate H];
    unfold lift at 1; rewrite H ].

Lemma service_bad_request (request : Service.request) st e :
  Service.requested_id request = Raise e ->
  Service.get_transcript api request st = (Raise e, st).
Proof.
  intro H. unfold Service.get_transcript; unfold Service.requested_id in H.
  unfold bind at 1.
  destruct (Service.method request); try discriminate H.
  unfold bind at 1, lift at 1.
  destruct (Service.get_json request) as [json|e'|b]; [|congruence|discriminate H].
  unfold lift at 1. rewrite H. reflexivity.
Qed.

Lemma service_bad_request_base (request : Service.request) st b :
  Service.requested_id request = RaiseBase b ->
  Service.get_transcript api request st = (RaiseBase b, st).
Proof.
  intro H. unfold Service.get_transcript; unfold Service.requested_id in H.
  unfold bind at 1.
  destruct (Service.method request); try discriminate H.
  unfold bind at 1, lift at 1.
  destruct (Service.get_json request) as [json|e'|b']; [|discriminate H|congruence].
  unfold lift at 1. rewrite H. reflexivity.
Qed.

Lemma service_missing (request : Service.request) st video_id :
  Service.requested_id request = Ok video_id ->
  truthy video_id = false ->
  Service.get_transcript api request st
  = (Ok {| Service.status := 400;
           Service.body := VDict [ (lit "success", VBool false);
                                   (lit "error", VStr (lit "videoId parameter required")) ] |},
     st).
Proof. intros H T. read_id H; rewrite T; reflexivity. Qed.

Lemma service_returns (request : Service.request) st video_id entries w :
  Service.requested_id request = Ok video_id ->
  truthy video_id = true ->
  api video_id (world st) = (Ok entries, w) ->
  Service.get_transcript api request st
  = (Ok {| Service.status := 200;
           Service.body := VDict (Spec.TranscriptResult video_id entries) |},
     Spec.after_fetch st video_id w).
Proof. intros H T F. read_id H; rewrite T; cbn [negb]; run_try F. Qed.

Lemma service_raises (request : Service.request) st video_id e w :
  Service.requested_id request = Ok video_id ->
  truthy video_id = true ->
  api video_id (world st) = (Raise e, w) ->
  Service.get_transcript api request st
  = (Ok {| Service.status := 400;
           Service.body := VDict (Spec.TranscriptError video_id e) |},
     Spec.after_fetch st video_id w).
Proof. intros H T F. read_id H; rewrite T; cbn [negb]; run_try F. Qed.

Lemma service_propagates (request : Service.request) st video_id b w :
  Service.requested_id request = Ok video_id ->
  truthy video_id = true ->
  api video_id (world st) = (RaiseBase b, w) ->
  Service.get_transcript api request st
  = (RaiseBase b, Spec.after_fetch st video_id w).
Proof. intros H T F. read_id H; rewrite T; cbn [negb]; run_try F. Qed.

End Normalisation.

(** A capability does not raise outside [Exception]. *)
Lemma capability_raises_Exception (World : Type) (api : capability World)
    (video_id : value) (w w' : World) (b : BaseException) :
  api video_id w <> (RaiseBase b, w').
Proof.
  intro H. pose proof (fetch_raises_Exception api video_id w) as C.
  now rewrite H in C.
Qed.

(* ================================================================== *)
(** * The normaliser's contract ([Api.fetch_transcript]) *)
(* ================================================================== *)

Section Contract.

Variable World : Type.
Variable api : capability World.

Implicit Types (video_id : value) (st : state World) (entries : list entry)
               (e : Exception) (w : World).

(** Whatever the library does, [fetch_transcript] returns a dict: one of
    the three records. *)
Lemma api_cases (HAS_TRANSCRIPT_API : bool) video_id st :
  exists result st',
    Api.fetch_transcript HAS_TRANSCRIPT_API api video_id st = (Ok result, st')
    /\ ((HAS_TRANSCRIPT_API = false /\ st' = st
         /\ result = [ (lit "success", VBool false);
                       (lit "error", VStr (lit "youtube-transcript-api not installed"));
                       (lit "errorType", VStr (lit "ImportError")) ])
        \/ (exists entries w, HAS_TRANSCRIPT_API = true
              /\ api video_id (world st) = (Ok entries, w)
              /\ st' = Spec.after_fetch st video_id w
              /\ result = Spec.TranscriptResult video_id entries)
        \/ (exists e w, HAS_TRANSCRIPT_API = true
              /\ api video_id (world st) = (Raise e, w)
              /\ st' = Spec.after_fetch st video_id w
              /\ result = Spec.TranscriptError video_id e)).
Proof.
  destruct HAS_TRANSCRIPT_API.
  - destruct (api video_id (world st)) as [[entries|e|b] w] eqn:F;
    [ | |now destruct (capability_raises_Exception _ _ _ F)].
    + do 2 eexists; split; [exact (api_returns _ _ _ F)|].
      right; left. now exists entries, w.
    + do 2 eexists; split; [exact (api_raises _ _ _ F)|].
      right; right. now exists e, w.
  - do 2 eexists; split; [reflexivity|]. left. auto.
Qed.

Lemma script_cases video_id st :
  exists result st',
    Script.fetch_transcript api video_id st = (Ok result, st')
    /\ Api.fetch_transcript true api video_id st = (Ok result, st')
    /\ (dict_get (lit "success") result = VBool true
        \/ dict_get (lit "success") result = VBool false).
Proof.
  destruct (api video_id (world st)) as [[entries|e|b] w] eqn:F;
    [ | |now destruct (capability_raises_Exception _ _ _ F)].
  - do 2 eexists. rewrite (script_returns _ _ _ F), (api_returns _ _ _ F). auto.
  - do 2 eexists. rewrite (script_raises _ _ _ F), (api_raises _ _ _ F). auto.
Qed.

(** C1.  When the capability returns N entries, [fetch_transcript] returns
    a record with [success: true], exactly N segments in the entries'
    order, each carrying the entry's start, duration and text unchanged,
    [fullText] equal to the texts joined by one ASCII space and
    [wordCount] equal to the number of non-empty whitespace-delimited
    tokens of [fullText]; for N = 0 these are the empty string and 0.
    The capability was invoked once, on the identifier. *)
Theorem fetch_transcript_success video_id st entries w :
  api video_id (world st) = (Ok entries, w) ->
  exists result segments,
    Api.fetch_transcript true api video_id st
    = (Ok result, Spec.after_fetch st video_id w)
    /\ dict_get (lit "success") result = VBool true
    /\ dict_get (lit "videoId") result = video_id
    /\ dict_get (lit "segments") result = VList segments
    /\ List.length segments = List.length entries
    /\ (forall i entry,
          nth_error entries i = Some entry ->
          nth_error segments i
          = Some (VDict [ (lit "start", VFloat (start entry));
                          (lit "duration", VFloat (duration entry));
                          (lit "text", VStr (text entry)) ]))
    /\ dict_get (lit "fullText") result = VStr (join (lit " ") (map text entries))
    /\ dict_get (lit "wordCount") result
       = VInt (Spec.token_count (join (lit " ") (map text entries)))
    /\ (entries = [] ->
        dict_get (lit "fullText") result = VStr []
        /\ dict_get (lit "wordCount") result = VInt 0).
Proof.
  intro F. exists (Spec.TranscriptResult video_id entries), (map Spec.segment entries).
  split; [exact (api_returns _ _ _ F)|].
  repeat split; try reflexivity.
  - apply length_map.
  - intros i entry Hi. now rewrite nth_error_map, Hi.
  - now subst entries.
  - now subst entries.
Qed.

(** C3.  When the library failed to load, [fetch_transcript] returns a
    record with [success: false], [errorType] "ImportError" and the fixed
    message, and the capability is not invoked: the log of invocations
    and the world are as before. *)
Theorem fetch_transcript_unavailable video_id st :
  exists result st',
    Api.fetch_transcript false api video_id st = (Ok result, st')
    /\ dict_get (lit "success") result = VBool false
    /\ dict_get (lit "errorType") result = VStr (lit "ImportError")
    /\ dict_get (lit "error") result = VStr (lit "youtube-transcript-api not installed")
    /\ calls st' = calls st
    /\ world st' = world st.
Proof. do 2 eexists. repeat split; reflexivity. Qed.

(** C4.  Every successful normalisation has [language] "en" and [source]
    "youtube_auto", whatever the identifier and the entries. *)
Theorem language_and_source_fixed (HAS_TRANSCRIPT_API : bool) video_id st result st' :
  Api.fetch_transcript HAS_TRANSCRIPT_API api video_id st = (Ok result, st') ->
  dict_get (lit "success") result = VBool true ->
  dict_get (lit "language") result = VStr (lit "en")
  /\ dict_get (lit "source") result = VStr (lit "youtube_auto").
Proof.
  intros R S.
  destruct (api_cases HAS_TRANSCRIPT_API video_id st)
    as (r & s & R' & [(_ & _ & ->) | [(en & w & _ & _ & _ & ->) | (e & w & _ & _ & _ & ->)]]);
    rewrite R' in R; injection R as <- <-.
  - discriminate S.
  - split; reflexivity.
  - discriminate S.
Qed.

(** The result of [fetch_transcript] on a deterministic capability does
    not depend on the state it starts from. *)
Lemma result_independent_of_state (HAS_TRANSCRIPT_API : bool) video_id st1 st2 :
  Spec.deterministic api ->
  fst (Api.fetch_transcript HAS_TRANSCRIPT_API api video_id st1)
  = fst (Api.fetch_transcript HAS_TRANSCRIPT_API api video_id st2).
Proof.
  intro D. specialize (D video_id (world st1) (world st2)).
  destruct HAS_TRANSCRIPT_API; [|reflexivity].
  destruct (api video_id (world st1)) as [[en1|e1|b1] w1] eqn:F1;
    [ | |now destruct (capability_raises_Exception _ _ _ F1)];
    (destruct (api video_id (world st2)) as [[en2|e2|b2] w2] eqn:F2;
     [ | |now destruct (capability_raises_Exception _ _ _ F2)]);
    cbn [fst] in D; try discriminate D; injection D as <-.
  - now rewrite (api_returns _ _ _ F1), (api_returns _ _ _ F2).
  - now rewrite (api_raises _ _ _ F1), (api_raises _ _ _ F2).
Qed.

(** C5.  Two invocations in a row, with the same identifier and a
    deterministic capability, return the same record, so the same bytes
    under any serialiser [json_dumps]. *)
Theorem normalisation_deterministic
    (HAS_TRANSCRIPT_API : bool) (json_dumps : value -> list Byte.byte) video_id st :
  Spec.deterministic api ->
  exists first st1 second st2,
    Api.fetch_transcript HAS_TRANSCRIPT_API api video_id st = (Ok first, st1)
    /\ Api.fetch_transcript HAS_TRANSCRIPT_API api video_id st1 = (Ok second, st2)
    /\ first = second
    /\ json_dumps (VDict first) = json_dumps (VDict second).
Proof.
  intro D.
  destruct (api_cases HAS_TRANSCRIPT_API video_id st) as (r1 & st1 & R1 & _).
  destruct (api_cases HAS_TRANSCRIPT_API video_id st1) as (r2 & st2 & R2 & _).
  exists r1, st1, r2, st2.
  pose proof (result_independent_of_state HAS_TRANSCRIPT_API video_id st st1 D) as E.
  rewrite R1, R2 in E. cbn [fst] in E. injection E as <-. auto.
Qed.

(** C6.  The three copies of the normalisation compute the same record:
    the serverless function (with the library loaded), the script, and
    the Flask view for a request carrying the identifier, whose status is
    200 or 400 by the record's [success]. *)
Theorem adapters_agree video_id st :
  exists result st',
    Api.fetch_transcript true api video_id st = (Ok result, st')
    /\ Script.fetch_transcript api video_id st = (Ok result, st')
    /\ forall request,
         Service.requested_id request = Ok video_id ->
         truthy video_id = true ->
         Service.get_transcript api request st
         = (Ok {| Service.status :=
                    if truthy (dict_get (lit "success") result) then 200 else 400;
                  Service.body := VDict result |},
            st').
Proof.
  destruct (api video_id (world st)) as [[entries|e|b] w] eqn:F;
    [ | |now destruct (capability_raises_Exception _ _ _ F)].
  - do 2 eexists. split; [exact (api_returns _ _ _ F)|].
    split; [exact (script_returns _ _ _ F)|].
    intros request Hid Ht. exact (service_returns _ _ _ Hid Ht F).
  - do 2 eexists. split; [exact (api_raises _ _ _ F)|].
    split; [exact (script_raises _ _ _ F)|].
    intros request Hid Ht. exact (service_raises _ _ _ Hid Ht F).
Qed.

(** ** The handlers of the serverless function *)

Variable HAS_TRANSCRIPT_API : bool.

(** After a truthy identifier both handlers do the same: normalise, and
    answer 200 or 400 by the record's [success]. *)
Lemma api_status video_id st :
  exists result st',
    Api.fetch_transcript HAS_TRANSCRIPT_API api video_id st = (Ok result, st')
    /\ ((dict_get (lit "success") result = VBool true
         /\ (if truthy (dict_get (lit "success") result) then 200 else 400)%Z = 200%Z)
        \/ (dict_get (lit "success") result = VBool false
            /\ (if truthy (dict_get (lit "success") result) then 200 else 400)%Z = 400%Z)).
Proof.
  destruct (api_cases HAS_TRANSCRIPT_API video_id st) as (r & s & R & C).
  exists r, s. split; [exact R|].
  destruct C as [(_ & _ & ->) | [(en & w & _ & _ & _ & ->) | (e & w & _ & _ & _ & ->)]];
    cbn; auto.
Qed.

(** For a capability, every GET whose target parsed is answered, with
    200 and [success: true] or with 400 and [success: false]. *)
Lemma do_GET_status (params : Api.query) st :
  exists response st',
    Api.do_GET HAS_TRANSCRIPT_API api params st = (Ok response, st')
    /\ ((Api.status response = 200%Z /\ Spec.success (Api.body response) = VBool true)
        \/ (Api.status response = 400%Z /\ Spec.success (Api.body response) = VBool false)).
Proof.
  unfold Api.do_GET.
  destruct (truthy (Api.params_first (lit "videoId") params)); cbn [negb].
  - unfold bind.
    destruct (api_status (Api.params_first (lit "videoId") params) st)
      as (r & s & -> & [[S E] | [S E]]);
      do 2 eexists; (split; [reflexivity|]); cbn [Api.status Api.body Spec.success];
      rewrite E; auto.
  - do 2 eexists; split; [reflexivity|]. right. split; reflexivity.
Qed.

(** A GET request without a usable [videoId] is answered 400 and the
    capability is not invoked. *)
Lemma do_GET_missing_id (params : Api.query) st :
  truthy (Api.params_first (lit "videoId") params) = false ->
  Api.do_GET HAS_TRANSCRIPT_API api params st
  = (Ok {| Api.status := 400;
           Api.headers := [ (lit "Content-Type", lit "application/json") ];
           Api.body := VDict [ (lit "success", VBool false);
                               (lit "error", VStr (lit "videoId parameter required")) ] |},
     st).
Proof. intro T. unfold Api.do_GET. now rewrite T. Qed.

Variable json_loads : str -> option value.


(** X11.  Every response of [do_POST] is 200 with [success: true] or
    400 with [success: false]. *)
Lemma do_POST_status (req : Api.post_request) st response st' :
  Api.do_POST HAS_TRANSCRIPT_API api json_loads req st = (Ok response, st') ->
  (Api.status response = 200%Z /\ Spec.success (Api.body response) = VBool true)
  \/ (Api.status response = 400%Z /\ Spec.success (Api.body response) = VBool false).
Proof.
  unfold Api.do_POST. unfold bind at 1, lift at 1.
  destruct (decode _) as [body| |]; [|discriminate|discriminate].
  unfold bind at 1, lift at 1.
  destruct (value_get _ _) as [video_id| |]; [|discriminate|discriminate].
  destruct (truthy video_id); cbn [negb].
  - unfold bind.
    destruct (api_status video_id st) as (r & s & -> & [[S E] | [S E]]);
      intro H; injection H as <- <-; cbn [Api.status Api.body Spec.success];
      rewrite E; auto.
  - intro H; injection H as <- <-. right. split; reflexivity.
Qed.

(** X15.  Every response of the Flask view is 200 with [success: true]
    or 400 with [success: false]. *)
Lemma service_status (request : Service.request) st response st' :
  Service.get_transcript api request st = (Ok response, st') ->
  (Service.status response = 200%Z /\ Spec.success (Service.body response) = VBool true)
  \/ (Service.status response = 400%Z /\ Spec.success (Service.body response) = VBool false).
Proof.
  destruct (Service.requested_id request) as [video_id|e|b0] eqn:Hid.
  - destruct (truthy video_id) eqn:T.
    + destruct (api video_id (world st)) as [[entries|e|b] w] eqn:F;
    [ | |now destruct (capability_raises_Exception _ _ _ F)].
      * rewrite (service_returns _ _ _ Hid T F). intro H; injection H as <- <-.
        left. split; reflexivity.
      * rewrite (service_raises _ _ _ Hid T F). intro H; injection H as <- <-.
        right. split; reflexivity.
    + rewrite (service_missing api _ st Hid T). intro H; injection H as <- <-.
      right. split; reflexivity.
  - rewrite (service_bad_request api _ st Hid). discriminate.
  - rewrite (service_bad_request_base api _ st Hid). discriminate.
Qed.

(** A GET (or HEAD) request to the Flask view is always answered. *)
Lemma service_get_responds (request : Service.request) st :
  Service.method request <> Service.POST ->
  exists response st', Service.get_transcript api request st = (Ok response, st').
Proof.
  intro NP.
  assert (exists video_id, Service.requested_id request = Ok video_id) as [video_id Hid].
  { unfold Service.requested_id. destruct (Service.method request); try congruence; eauto. }
  destruct (truthy video_id) eqn:T.
  - destruct (api video_id (world st)) as [[entries|e|b] w] eqn:F;
    [ | |now destruct (capability_raises_Exception _ _ _ F)].
    + rewrite (service_returns _ _ _ Hid T F). eauto.
    + rewrite (service_raises _ _ _ Hid T F). eauto.
  - rewrite (service_missing api _ st Hid T). eauto.
Qed.

End Contract.

(* ================================================================== *)
(** * The adapters: Flask view and command line *)
(* ================================================================== *)

Section Adapters.

Variable World : Type.
Variable api : capability World.

Implicit Types (st : state World).

Lemma str_eqb_eq (a b : str) : str_eqb a b = true -> a = b.
Proof.
  revert b; induction a as [|x a IH]; destruct b as [|y b]; simpl;
    try discriminate; [reflexivity|].
  intro H. apply andb_prop in H as [Hx Hab].
  apply N.eqb_eq in Hx. f_equal; auto.
Qed.

(** [request.args.get(k)] is [None] exactly when no pair has the name [k]. *)
Lemma args_get_absent (k : str) (a : list (str * str)) :
  (forall v, ~ In (k, v) a) -> Service.args_get k a = VNone.
Proof.
  induction a as [|[k' v'] a IH]; intro H; simpl; [reflexivity|].
  destruct (str_eqb k k') eqn:E.
  - apply str_eqb_eq in E. subst k'. exfalso. apply (H v'). now left.
  - apply IH. intros v Hv. apply (H v). now right.
Qed.

(** C7.  A GET request to the Flask view whose [videoId] parameter is
    absent or empty is answered with status 400 and the body
    [{success: false, error: "videoId parameter required"}]; the state is
    left as it was, so the normalisation did not run and the capability
    was not invoked. *)
Theorem service_get_missing_id (request : Service.request) st :
  Service.method request = Service.GET ->
  (forall v, ~ In (lit "videoId", v) (Service.args request))
  \/ Service.args_get (lit "videoId") (Service.args request) = VStr [] ->
  Service.get_transcript api request st
  = (Ok {| Service.status := 400;
           Service.body := VDict [ (lit "success", VBool false);
                                   (lit "error", VStr (lit "videoId parameter required")) ] |},
     st).
Proof.
  intros G A.
  assert (Service.requested_id request
          = Ok (Service.args_get (lit "videoId") (Service.args request))) as Hid.
  { unfold Service.requested_id. now rewrite G. }
  apply (service_missing api _ st Hid).
  destruct A as [A | ->]; [|reflexivity].
  now rewrite (args_get_absent _ _ A).
Qed.

(** C8, at POST /transcript with the JSON body [[1]].  The view calls
    [.get] on the list and raises [AttributeError]: it returns no 400
    response with a [success: false] body. *)
Theorem service_post_array_raises st :
  Service.get_transcript api Scenario.post_array st
  = (Raise (AttributeError (VList [VInt 1]) "get"), st).
Proof. reflexivity. Qed.

(** C9, at a POST to the serverless function whose body is the single
    byte 0xFF, which is not JSON.  [.decode()] raises
    [UnicodeDecodeError] before the [try]: the handler raises and writes
    no 400 response, whatever [json.loads] would do. *)
Theorem do_POST_undecodable_raises
    (HAS_TRANSCRIPT_API : bool) (json_loads : str -> option value) st :
  Api.do_POST HAS_TRANSCRIPT_API api json_loads Scenario.post_byte_ff st
  = (Raise UnicodeDecodeError, st).
Proof. reflexivity. Qed.

(** The serverless [do_POST] also raises on a body that is JSON but not
    an object. *)
Lemma do_POST_array_raises (HAS_TRANSCRIPT_API : bool) (json_loads : str -> option value) st :
  json_loads (lit "[1]") = Some (VList [VInt 1]) ->
  Api.do_POST HAS_TRANSCRIPT_API api json_loads
    {| Api.content_length := Some 3%N;
       Api.rfile := [ Byte.x5b; Byte.x31; Byte.x5d ] |} st
  = (Raise (AttributeError (VList [VInt 1]) "get"), st).
Proof.
  intro L. unfold Api.do_POST. unfold bind at 1, lift at 1.
  replace (decode _) with (Ok (lit "[1]")) by reflexivity.
  cbn [is_empty negb lit]. cbn in L. cbn. rewrite L. reflexivity.
Qed.

End Adapters.

(* ================================================================== *)
(** * Failures of the fetch, derived from [Exception] or not *)
(* ================================================================== *)

Section Failures.

Variable World : Type.
Variable api : fetch_fn World.

Implicit Types (video_id : value) (st : state World) (e : Exception) (w : World).

(** C2, as amended.  For every fetch function: when it raises an
    exception derived from [Exception], with message X and class name
    Y, [fetch_transcript] returns (it does not raise) a record with
    [success: false], [error] X, [errorType] Y and the identifier under
    [videoId]; the Flask view does the same under status 400. *)
Theorem fetch_failure_is_returned video_id st e w :
  api video_id (world st) = (Raise e, w) ->
  exists result,
    Api.fetch_transcript true api video_id st
    = (Ok result, Spec.after_fetch st video_id w)
    /\ dict_get (lit "success") result = VBool false
    /\ dict_get (lit "error") result = VStr (message e)
    /\ dict_get (lit "errorType") result = VStr (type_name e)
    /\ dict_get (lit "videoId") result = video_id
    /\ forall request,
         Service.requested_id request = Ok video_id ->
         truthy video_id = true ->
         Service.get_transcript api request st
         = (Ok {| Service.status := 400; Service.body := VDict result |},
            Spec.after_fetch st video_id w).
Proof.
  intro F. exists (Spec.TranscriptError video_id e).
  split; [exact (api_raises _ _ _ F)|].
  repeat split; try reflexivity.
  intros request Hid Ht. exact (service_raises _ _ _ Hid Ht F).
Qed.

(** C10, as amended.  For every fetch function that does not raise
    outside [Exception] on [argv[1]]: the script ends with an exit
    code, 1 exactly when no argument was given; otherwise it prints the
    record [fetch_transcript] returned for [argv[1]] and ends with 0,
    also when the fetch raised and the record has [success: false]. *)
Theorem cli_exit_code (argv : list str) st :
  ((2 <= List.length argv)%nat ->
   forall b w, api (VStr (nth 1 argv [])) (world st) <> (RaiseBase b, w)) ->
  exists out st',
    Script.main api argv st = (Ok out, st')
    /\ Script.run api argv st = (out, st')
    /\ (Script.exit_code out = 1%Z <-> (List.length argv < 2)%nat)
    /\ ((List.length argv < 2)%nat ->
        st' = st
        /\ Script.stdout out = [ VDict [ (lit "success", VBool false);
                                         (lit "error", VStr (lit "Video ID required")) ] ])
    /\ ((2 <= List.length argv)%nat ->
        exists result,
          Script.fetch_transcript api (VStr (nth 1 argv [])) st = (Ok result, st')
          /\ Script.stdout out = [VDict result]
          /\ Script.exit_code out = 0%Z
          /\ forall e w,
               api (VStr (nth 1 argv [])) (world st) = (Raise e, w) ->
               dict_get (lit "success") result = VBool false).
Proof.
  intro NB. unfold Script.run, Script.main.
  destruct (List.length argv <? 2)%nat eqn:L.
  - apply Nat.ltb_lt in L. do 2 eexists. split; [reflexivity|]. split; [reflexivity|].
    cbn [Script.exit_code Script.stdout]. split; [tauto|]. split; [auto|lia].
  - apply Nat.ltb_ge in L. unfold bind.
    destruct (api (VStr (nth 1 argv [])) (world st)) as [[entries|e|b] w] eqn:F;
      [ | |now destruct (NB L b w)].
    + rewrite (script_returns _ _ _ F). do 2 eexists.
      split; [reflexivity|]. split; [reflexivity|].
      cbn [Script.exit_code Script.stdout]. split; [split; [discriminate|lia]|].
      split; [lia|].
      intros _. eexists. repeat split. intros e w' H. discriminate H.
    + rewrite (script_raises _ _ _ F). do 2 eexists.
      split; [reflexivity|]. split; [reflexivity|].
      cbn [Script.exit_code Script.stdout]. split; [split; [discriminate|lia]|].
      split; [lia|].
      intros _. eexists. repeat split.
Qed.

End Failures.

(* ================================================================== *)
(** * The scenarios of the specification *)
(* ================================================================== *)

(** The end-to-end scenario: "abc123" with the entries Hello and world. *)
Lemma scenario_hello_world :
  exists result segments,
    Api.fetch_transcript true Scenario.hello_world Scenario.abc123 Scenario.start_state
    = (Ok result, Spec.after_fetch Scenario.start_state Scenario.abc123 tt)
    /\ dict_get (lit "success") result = VBool true
    /\ dict_get (lit "videoId") result = Scenario.abc123
    /\ dict_get (lit "segments") result = VList segments
    /\ List.length segments = 2%nat
    /\ (forall i entry,
          nth_error [ mkEntry 0%float 2.5%float (lit "Hello");
                      mkEntry 2.5%float 1%float (lit "world") ] i = Some entry ->
          nth_error segments i
          = Some (VDict [ (lit "start", VFloat (start entry));
                          (lit "duration", VFloat (duration entry));
                          (lit "text", VStr (text entry)) ]))
    /\ dict_get (lit "fullText") result = VStr (lit "Hello world")
    /\ dict_get (lit "wordCount") result = VInt 2
    /\ ([ mkEntry 0%float 2.5%float (lit "Hello");
          mkEntry 2.5%float 1%float (lit "world") ] = [] ->
        dict_get (lit "fullText") result = VStr []
        /\ dict_get (lit "wordCount") result = VInt 0).
Proof.
  exact (fetch_transcript_success Scenario.hello_world Scenario.abc123
           Scenario.start_state eq_refl).
Defined.

(** A stub that fails with message "X" and class name "Y". *)
Lemma scenario_failing_stub :
  exists result,
    Api.fetch_transcript true Scenario.failing Scenario.abc123 Scenario.start_state
    = (Ok result, Spec.after_fetch Scenario.start_state Scenario.abc123 tt)
    /\ dict_get (lit "success") result = VBool false
    /\ dict_get (lit "error") result = VStr (lit "X")
    /\ dict_get (lit "errorType") result = VStr (lit "Y")
    /\ dict_get (lit "videoId") result = Scenario.abc123
    /\ Service.get_transcript Scenario.failing Scenario.get_abc123 Scenario.start_state
       = (Ok {| Service.status := 400; Service.body := VDict result |},
          Spec.after_fetch Scenario.start_state Scenario.abc123 tt).
Proof.
  destruct (fetch_failure_is_returned Scenario.failing Scenario.abc123
              Scenario.start_state eq_refl) as (result & R & S & E & T & V & G).
  exists result. repeat split; try assumption.
  apply G; reflexivity.
Defined.

(** The scenario's record has language "en" and source "youtube_auto". *)
Lemma scenario_language_source :
  dict_get (lit "language") (Spec.TranscriptResult Scenario.abc123
     [ mkEntry 0%float 2.5%float (lit "Hello"); mkEntry 2.5%float 1%float (lit "world") ])
  = VStr (lit "en")
  /\ dict_get (lit "source") (Spec.TranscriptResult Scenario.abc123
     [ mkEntry 0%float 2.5%float (lit "Hello"); mkEntry 2.5%float 1%float (lit "world") ])
  = VStr (lit "youtube_auto").
Proof.
  apply (@language_and_source_fixed unit Scenario.hello_world true Scenario.abc123
           Scenario.start_state _ (Spec.after_fetch Scenario.start_state Scenario.abc123 tt)).
  - reflexivity.
  - reflexivity.
Defined.

Lemma counting_deterministic : Spec.deterministic Scenario.counting.
Proof. intros video_id w1 w2. reflexivity. Qed.

(** The counting stub, invoked twice in a row: the world moved on, the
    record did not. *)
Lemma scenario_twice :
  exists first st1 second st2,
    Api.fetch_transcript true Scenario.counting Scenario.abc123
      {| world := 0%nat; calls := [] |} = (Ok first, st1)
    /\ Api.fetch_transcript true Scenario.counting Scenario.abc123 st1 = (Ok second, st2)
    /\ first = second
    /\ world st1 = 1%nat /\ world st2 = 2%nat
    /\ calls st2 = [Scenario.abc123; Scenario.abc123].
Proof.
  destruct (normalisation_deterministic true (fun _ => []) Scenario.abc123
              {| world := 0%nat; calls := [] |} counting_deterministic)
    as (first & st1 & second & st2 & R1 & R2 & E & _).
  exists first, st1, second, st2.
  split; [exact R1|]. split; [exact R2|]. split; [exact E|].
  injection R1 as _ <-. injection R2 as _ <-. repeat split.
Defined.

(** The three copies on the scenario, the view reached by
    GET /transcript?videoId=abc123. *)
Lemma scenario_three_adapters :
  exists result st',
    Api.fetch_transcript true Scenario.hello_world Scenario.abc123 Scenario.start_state
    = (Ok result, st')
    /\ Script.fetch_transcript Scenario.hello_world Scenario.abc123 Scenario.start_state
       = (Ok result, st')
    /\ Service.get_transcript Scenario.hello_world Scenario.get_abc123 Scenario.start_state
       = (Ok {| Service.status :=
                  if truthy (dict_get (lit "success") result) then 200 else 400;
                Service.body := VDict result |},
          st').
Proof.
  destruct (adapters_agree Scenario.hello_world Scenario.abc123 Scenario.start_state)
    as (result & st' & A & S & V).
  exists result, st'. repeat split; try assumption.
  apply V; reflexivity.
Defined.

(** The scenario GET /transcript with no query parameter. *)
Lemma scenario_get_no_id :
  Service.get_transcript Scenario.hello_world Scenario.get_no_id Scenario.start_state
  = (Ok {| Service.status := 400;
           Service.body := VDict [ (lit "success", VBool false);
                                   (lit "error", VStr (lit "videoId parameter required")) ] |},
     Scenario.start_state).
Proof.
  apply service_get_missing_id.
  - reflexivity.
  - left. intros v H. exact H.
Defined.

(** The script on [abc123] with the failing stub: exit code 0 and a
    printed record with [success: false]. *)
Lemma scenario_cli_failing :
  exists out result,
    fst (Script.run Scenario.failing [lit "fetch-transcript.py"; lit "abc123"]
           Scenario.start_state) = out
    /\ Script.stdout out = [VDict result]
    /\ Script.exit_code out = 0%Z
    /\ dict_get (lit "success") result = VBool false.
Proof.
  destruct (@cli_exit_code unit Scenario.failing [lit "fetch-transcript.py"; lit "abc123"]
              Scenario.start_state) as (out & st' & _ & R & _ & _ & H).
  - intros _ b w H. discriminate H.
  - destruct H as (result & _ & O & X & F); [cbn; lia|].
    exists out, result. rewrite R. repeat split; try assumption.
    apply (F (mkException (lit "Y") (lit "X")) tt). reflexivity.
Defined.

(** A fetch interrupted from the keyboard: [KeyboardInterrupt] is not
    derived from [Exception], so neither [fetch_transcript] nor the
    Flask view returns a record; the exception leaves both. *)
Lemma interrupt_is_not_returned :
  Scenario.interrupted Scenario.abc123 tt = (RaiseBase KeyboardInterrupt, tt)
  /\ Api.fetch_transcript true Scenario.interrupted Scenario.abc123 Scenario.start_state
     = (RaiseBase KeyboardInterrupt,
        Spec.after_fetch Scenario.start_state Scenario.abc123 tt)
  /\ Service.get_transcript Scenario.interrupted Scenario.get_abc123 Scenario.start_state
     = (RaiseBase KeyboardInterrupt,
        Spec.after_fetch Scenario.start_state Scenario.abc123 tt)
  /\ ~ (exists result st',
          Api.fetch_transcript true Scenario.interrupted Scenario.abc123
            Scenario.start_state = (Ok result, st')).
Proof.
  repeat split; try reflexivity.
  intros (result & st' & H). discriminate H.
Qed.

(** The script given an argument, with a fetch that calls
    [sys.exit(1)]: nothing is printed and the exit code is 1. *)
Lemma cli_exit_1_with_argument :
  Script.run Scenario.exiting [lit "fetch-transcript.py"; lit "abc123"]
    Scenario.start_state
  = ({| Script.stdout := []; Script.exit_code := 1 |},
     Spec.after_fetch Scenario.start_state Scenario.abc123 tt)
  /\ ~ (exists out st',
          Script.main Scenario.exiting [lit "fetch-transcript.py"; lit "abc123"]
            Scenario.start_state = (Ok out, st')).
Proof.
  split; [reflexivity|].
  intros (out & st' & H). discriminate H.
Qed.

(* ================================================================== *)
(** * Further properties of the normalisation *)
(* ================================================================== *)

(** A whitespace character ends the pieces of what precedes it. *)
Lemma fields_app_space (a b : str) (c : char) :
  isspace c = true ->
  Spec.fields (a ++ c :: b) = Spec.fields a ++ Spec.fields b.
Proof.
  intro Hc. induction a as [|x a IH]; simpl.
  - now rewrite Hc.
  - destruct (isspace x); [now rewrite IH|].
    rewrite IH. destruct (Spec.fields a) as [|f fs] eqn:E; [|reflexivity].
    now apply fields_nonempty in E.
Qed.

Lemma tokens_app_space (a b : str) (c : char) :
  isspace c = true ->
  Spec.tokens (a ++ c :: b) = Spec.tokens a ++ Spec.tokens b.
Proof.
  intro Hc. unfold Spec.tokens. now rewrite (fields_app_space a b c Hc), filter_app.
Qed.

(** The tokens of the joined text are the tokens of the texts, in order. *)
Lemma tokens_join (texts : list str) :
  Spec.tokens (join (lit " ") texts) = flat_map Spec.tokens texts.
Proof.
  induction texts as [|t ts IH]; [reflexivity|].
  destruct ts as [|t' ts].
  - simpl. now rewrite app_nil_r.
  - change (join (lit " ") (t :: t' :: ts)) with (t ++ 32%N :: join (lit " ") (t' :: ts)).
    rewrite tokens_app_space by reflexivity. now rewrite IH.
Qed.

(** A string has no token exactly when it is all whitespace. *)
Lemma tokens_nil_iff (s : str) :
  Spec.tokens s = [] <-> forallb isspace s = true.
Proof.
  unfold Spec.tokens. induction s as [|c s IH]; simpl; [tauto|].
  destruct (isspace c) eqn:Hc; simpl.
  - exact IH.
  - destruct (Spec.fields s) as [|f fs]; simpl; split; discriminate.
Qed.

Lemma length_flat_map_tokens (texts : list str) :
  Z.of_nat (List.length (flat_map Spec.tokens texts))
  = fold_right Z.add 0%Z (map Spec.token_count texts).
Proof.
  induction texts as [|t ts IH]; [reflexivity|].
  cbn [flat_map map fold_right]. rewrite length_app, Nat2Z.inj_add, IH. reflexivity.
Qed.

Lemma length_join (sep : str) (texts : list str) :
  List.length (join sep texts)
  = (fold_right Nat.add 0 (map (@List.length char) texts)
     + List.length sep * (List.length texts - 1))%nat.
Proof.
  induction texts as [|t ts IH]; [simpl; lia|].
  destruct ts as [|t' ts].
  - simpl. lia.
  - change (join sep (t :: t' :: ts)) with (t ++ sep ++ join sep (t' :: ts)).
    rewrite !length_app, IH. cbn [map fold_right List.length]. lia.
Qed.

Lemma tokens_all_nil_iff (entries : list entry) :
  flat_map Spec.tokens (map text entries) = []
  <-> forall entry, In entry entries -> forallb isspace (text entry) = true.
Proof.
  induction entries as [|e es IH]; simpl.
  - split; [intros _ x []|reflexivity].
  - split.
    + intros H x [<- | Hx].
      * apply tokens_nil_iff. now apply app_eq_nil in H.
      * apply app_eq_nil in H as [_ H]. now apply IH.
    + intro H. rewrite (proj2 (tokens_nil_iff (text e))) by (apply H; now left).
      apply IH. intros x Hx. apply H. now right.
Qed.

Section NormalisationFacts.

Variable World : Type.
Variable api : capability World.

Implicit Types (video_id : value) (st : state World) (entries : list entry).

(** X1.  On success [wordCount] is the sum, over the entries, of the
    number of whitespace-delimited tokens of each entry's text: joining
    with a space neither merges nor splits words. *)
Theorem word_count_adds_up video_id st entries w :
  api video_id (world st) = (Ok entries, w) ->
  exists result st',
    Api.fetch_transcript true api video_id st = (Ok result, st')
    /\ dict_get (lit "wordCount") result
       = VInt (fold_right Z.add 0%Z
                 (map (fun entry => Spec.token_count (text entry)) entries)).
Proof.
  intro F. do 2 eexists. split; [exact (api_returns _ _ _ F)|].
  change (dict_get (lit "wordCount") (Spec.TranscriptResult video_id entries))
    with (VInt (Spec.token_count (join (lit " ") (map text entries)))).
  unfold Spec.token_count at 1.
  now rewrite tokens_join, length_flat_map_tokens, map_map.
Qed.

(** X2.  On success the length of [fullText] is the total length of the
    texts plus one separator between consecutive entries: no text is
    trimmed or dropped, an empty text still gets its separator. *)
Theorem full_text_length video_id st entries w :
  api video_id (world st) = (Ok entries, w) ->
  exists result st' full_text,
    Api.fetch_transcript true api video_id st = (Ok result, st')
    /\ dict_get (lit "fullText") result = VStr full_text
    /\ List.length full_text
       = (fold_right Nat.add 0 (map (fun entry => List.length (text entry)) entries)
          + (List.length entries - 1))%nat.
Proof.
  intro F. do 3 eexists. split; [exact (api_returns _ _ _ F)|].
  split; [reflexivity|].
  unfold Spec.full_text. rewrite length_join, map_map, length_map. simpl. lia.
Qed.

(** X3.  On success [wordCount] is 0 exactly when every text consists of
    whitespace only (in particular when there is no entry). *)
Theorem word_count_zero_iff video_id st entries w :
  api video_id (world st) = (Ok entries, w) ->
  exists result st',
    Api.fetch_transcript true api video_id st = (Ok result, st')
    /\ (dict_get (lit "wordCount") result = VInt 0
        <-> forall entry, In entry entries -> forallb isspace (text entry) = true).
Proof.
  intro F. do 2 eexists. split; [exact (api_returns _ _ _ F)|].
  change (dict_get (lit "wordCount") (Spec.TranscriptResult video_id entries))
    with (VInt (Spec.token_count (join (lit " ") (map text entries)))).
  unfold Spec.token_count. rewrite tokens_join.
  pose proof (tokens_all_nil_iff entries) as E.
  rewrite <- E. split.
  - intro H. injection H as H. destruct (flat_map _ _); [reflexivity|discriminate H].
  - now intros ->.
Qed.

(** X4.  The keys of the returned dict are one of three fixed lists,
    decided by the outcome: the seven of a result when [success] is
    true; otherwise the four of a fetch failure when the library loaded,
    and, when it did not, three: that record has no [videoId]. *)
Theorem result_keys (HAS_TRANSCRIPT_API : bool) video_id st :
  exists result st',
    Api.fetch_transcript HAS_TRANSCRIPT_API api video_id st = (Ok result, st')
    /\ map fst result
       = (if truthy (dict_get (lit "success") result) then
            [ lit "success"; lit "videoId"; lit "segments"; lit "fullText";
              lit "wordCount"; lit "language"; lit "source" ]
          else if HAS_TRANSCRIPT_API then
            [ lit "success"; lit "videoId"; lit "error"; lit "errorType" ]
          else
            [ lit "success"; lit "error"; lit "errorType" ]).
Proof.
  destruct (api_cases api HAS_TRANSCRIPT_API video_id st) as (r & s & R & C).
  exists r, s. split; [exact R|].
  destruct C as [(-> & _ & ->) | [(en & w & -> & _ & _ & ->) | (e & w & -> & _ & _ & ->)]];
    reflexivity.
Qed.

(** X5.  One call of [fetch_transcript] invokes the capability exactly
    once, on the identifier it was given, when the library loaded, and
    not at all otherwise, whether the fetch returns or raises: there is
    no retry, and earlier invocations stay in the log. *)
Theorem fetch_invoked_once (HAS_TRANSCRIPT_API : bool) video_id st :
  exists result st',
    Api.fetch_transcript HAS_TRANSCRIPT_API api video_id st = (Ok result, st')
    /\ calls st' = calls st ++ (if HAS_TRANSCRIPT_API then [video_id] else []).
Proof.
  destruct (api_cases api HAS_TRANSCRIPT_API video_id st) as (r & s & R & C).
  exists r, s. split; [exact R|].
  destruct C as [(-> & -> & _) | [(en & w & -> & _ & -> & _) | (e & w & -> & _ & -> & _)]];
    cbn; now rewrite ?app_nil_r.
Qed.

End NormalisationFacts.

(* ================================================================== *)
(** * Further properties of the serverless handlers *)
(* ================================================================== *)

Section HandlerSteps.

Variable World : Type.
Variable HAS_TRANSCRIPT_API : bool.
Variable api : fetch_fn World.
Variable json_loads : str -> option value.

Implicit Types (st : state World) (req : Api.post_request) (params : Api.query).

Lemma do_POST_steps req st :
  Api.do_POST HAS_TRANSCRIPT_API api json_loads req st
  = match decode (Reading.body_bytes req) with
    | Raise e => (Raise e, st)
    | RaiseBase b => (RaiseBase b, st)
    | Ok body =>
        match value_get (Reading.data_of json_loads body) (lit "videoId") with
        | Raise e => (Raise e, st)
        | RaiseBase b => (RaiseBase b, st)
        | Ok video_id =>
            if negb (truthy video_id) then
              (Ok {| Api.status := 400;
                     Api.headers := [ (lit "Content-Type", lit "application/json") ];
                     Api.body := VDict [ (lit "success", VBool false);
                                         (lit "error",
                                          VStr (lit "videoId required in request body")) ] |},
               st)
            else
              match Api.fetch_transcript HAS_TRANSCRIPT_API api video_id st with
              | (Ok result, st') =>
                  (Ok {| Api.status :=
                           if truthy (dict_get (lit "success") result) then 200 else 400;
                         Api.headers := [ (lit "Content-Type", lit "application/json");
                                          (lit "Access-Control-Allow-Origin", lit "*") ];
                         Api.body := VDict result |},
                   st')
              | (Raise e, st') => (Raise e, st')
              | (RaiseBase b, st') => (RaiseBase b, st')
              end
        end
    end.
Proof.
  unfold Api.do_POST, Reading.body_bytes, Reading.data_of. unfold bind at 1, lift at 1.
  destruct (decode _) as [body|e|b]; [|reflexivity|reflexivity].
  unfold bind at 1, lift at 1.
  destruct (value_get _ _) as [video_id|e|b]; [|reflexivity|reflexivity].
  destruct (truthy video_id); cbn [negb]; [|reflexivity].
  unfold bind. destruct (Api.fetch_transcript _ _ _ _) as [[result|e|b] st']; reflexivity.
Qed.

Lemma do_GET_steps params st :
  Api.do_GET HAS_TRANSCRIPT_API api params st
  = let video_id := Api.params_first (lit "videoId") params in
    if negb (truthy video_id) then
      (Ok {| Api.status := 400;
             Api.headers := [ (lit "Content-Type", lit "application/json") ];
             Api.body := VDict [ (lit "success", VBool false);
                                 (lit "error", VStr (lit "videoId parameter required")) ] |},
       st)
    else
      match Api.fetch_transcript HAS_TRANSCRIPT_API api video_id st with
      | (Ok result, st') =>
          (Ok {| Api.status :=
                   if truthy (dict_get (lit "success") result) then 200 else 400;
                 Api.headers := [ (lit "Content-Type", lit "application/json");
                                  (lit "Access-Control-Allow-Origin", lit "*") ];
                 Api.body := VDict result |},
           st')
      | (Raise e, st') => (Raise e, st')
      | (RaiseBase b, st') => (RaiseBase b, st')
      end.
Proof.
  unfold Api.do_GET. cbv zeta.
  destruct (truthy _); cbn [negb]; [|reflexivity].
  unfold bind. destruct (Api.fetch_transcript _ _ _ _) as [[result|e|b] st']; reflexivity.
Qed.

End HandlerSteps.

Section HandlerFacts.

Variable World : Type.
Variable HAS_TRANSCRIPT_API : bool.
Variable api : capability World.
Variable json_loads : str -> option value.

Implicit Types (st : state World) (req : Api.post_request) (params : Api.query).

(** X7.  Every GET is answered with [Content-Type: application/json];
    the header [Access-Control-Allow-Origin: *] follows exactly when the
    request carried a non-empty [videoId]: the 400 for a missing
    identifier is sent without it. *)
Theorem do_GET_cors params st :
  exists response st',
    Api.do_GET HAS_TRANSCRIPT_API api params st = (Ok response, st')
    /\ Api.headers response
       = (lit "Content-Type", lit "application/json")
         :: (if truthy (Api.params_first (lit "videoId") params)
             then [ (lit "Access-Control-Allow-Origin", lit "*") ]
             else []).
Proof.
  rewrite do_GET_steps. cbv zeta.
  destruct (truthy (Api.params_first (lit "videoId") params)); cbn [negb].
  - destruct (api_cases api HAS_TRANSCRIPT_API (Api.params_first (lit "videoId") params) st)
      as (r & s & -> & _).
    do 2 eexists. split; reflexivity.
  - do 2 eexists. split; reflexivity.
Qed.




End HandlerFacts.

(* ================================================================== *)
(** * Further properties of the Flask view and of the script *)
(* ================================================================== *)

Section ServiceFacts.

Variable World : Type.
Variable api : capability World.

Implicit Types (st : state World) (request : Service.request).

(** X17.  The view answers a POST whose JSON body is an object with the
    string [v] under [videoId] exactly as a GET (or HEAD) whose first
    [videoId] parameter is [v]: same status, body and final state. *)
Theorem service_method_independent (get post : Service.request) st (d : dict) (v : str) :
  Service.method get <> Service.POST ->
  Service.args_get (lit "videoId") (Service.args get) = VStr v ->
  Service.method post = Service.POST ->
  Service.get_json post = Ok (VDict d) ->
  dict_get (lit "videoId") d = VStr v ->
  Service.get_transcript api get st = Service.get_transcript api post st.
Proof.
  intros NP A P J V.
  assert (Service.requested_id get = Ok (VStr v)) as Hg.
  { unfold Service.requested_id. rewrite A.
    destruct (Service.method get); congruence. }
  assert (Service.requested_id post = Ok (VStr v)) as Hp.
  { unfold Service.requested_id. rewrite P, J.
    destruct d as [|i d']; [discriminate V|]. cbn [truthy value_get]. now rewrite V. }
  destruct (truthy (VStr v)) eqn:T.
  - destruct (api (VStr v) (world st)) as [[entries|e|b] w] eqn:F;
    [ | |now destruct (capability_raises_Exception _ _ _ F)].
    + now rewrite (service_returns _ _ _ Hg T F), (service_returns _ _ _ Hp T F).
    + now rewrite (service_raises _ _ _ Hg T F), (service_raises _ _ _ Hp T F).
  - now rewrite (service_missing api _ st Hg T), (service_missing api _ st Hp T).
Qed.

(** X18.  A POST whose JSON body is falsy (null, false, 0, "", [] or
    {}) is taken as [{}]: it is answered 400 "videoId parameter
    required" and the capability is not invoked. *)
Theorem service_post_falsy_body request st (json : value) :
  Service.method request = Service.POST ->
  Service.get_json request = Ok json ->
  truthy json = false ->
  Service.get_transcript api request st
  = (Ok {| Service.status := 400;
           Service.body := VDict [ (lit "success", VBool false);
                                   (lit "error", VStr (lit "videoId parameter required")) ] |},
     st).
Proof.
  intros P J T. apply (@service_missing _ api request st VNone); [|reflexivity].
  unfold Service.requested_id. now rewrite P, J, T.
Qed.

(** X19.  For a GET the Flask view and the serverless handler (with the
    library loaded) answer with the same status and the same body and
    leave the same state, whenever they read the same first [videoId]
    value or both read none. *)
Theorem service_matches_do_GET request (params : Api.query) st :
  Service.method request <> Service.POST ->
  Service.args_get (lit "videoId") (Service.args request)
  = Api.params_first (lit "videoId") params ->
  exists response st',
    Api.do_GET true api params st = (Ok response, st')
    /\ Service.get_transcript api request st
       = (Ok {| Service.status := Api.status response;
                Service.body := Api.body response |}, st').
Proof.
  intros NP A.
  assert (Service.requested_id request = Ok (Api.params_first (lit "videoId") params)) as Hid.
  { unfold Service.requested_id. rewrite A.
    destruct (Service.method request); congruence. }
  rewrite do_GET_steps. cbv zeta.
  destruct (truthy (Api.params_first (lit "videoId") params)) eqn:T; cbn [negb].
  - destruct (api (Api.params_first (lit "videoId") params) (world st)) as [[entries|e|b] w] eqn:F;
    [ | |now destruct (capability_raises_Exception _ _ _ F)].
    + rewrite (api_returns _ _ _ F), (service_returns _ _ _ Hid T F).
      do 2 eexists. split; reflexivity.
    + rewrite (api_raises _ _ _ F), (service_raises _ _ _ Hid T F).
      do 2 eexists. split; reflexivity.
  - rewrite (service_missing api _ st Hid T). do 2 eexists. split; reflexivity.
Qed.

(** X20.  Given an argument, the script invokes the capability exactly
    once, on [argv[1]] as it stands: it does not check it for emptiness
    (the HTTP adapters answer 400 for an empty identifier without
    fetching), and further arguments play no part. *)
Theorem main_invokes_on_any_argument (argv : list str) st :
  (2 <= List.length argv)%nat ->
  exists out st',
    Script.main api argv st = (Ok out, st')
    /\ calls st' = calls st ++ [VStr (nth 1 argv [])]
    /\ Script.main api [nth 0 argv []; nth 1 argv []] st = (Ok out, st').
Proof.
  intro L. destruct argv as [|a0 [|a1 rest]]; cbn in L; try lia.
  cbn [nth]. unfold Script.main. cbn [List.length Nat.ltb Nat.leb nth]. unfold bind.
  destruct (api (VStr a1) (world st)) as [[entries|e|b] w] eqn:F;
    [ | |now destruct (capability_raises_Exception _ _ _ F)].
  - rewrite (script_returns _ _ _ F). do 2 eexists. repeat split.
  - rewrite (script_raises _ _ _ F). do 2 eexists. repeat split.
Qed.

(** X21.  For a non-empty identifier the script prints exactly the body
    the serverless GET handler answers with (library loaded), leaves the
    same state, and ends with 0 whatever the status of that answer. *)
Theorem main_prints_GET_body (argv : list str) (params : Api.query) st :
  (2 <= List.length argv)%nat ->
  nth 1 argv [] <> [] ->
  Api.params_first (lit "videoId") params = VStr (nth 1 argv []) ->
  exists response out st',
    Api.do_GET true api params st = (Ok response, st')
    /\ Script.main api argv st = (Ok out, st')
    /\ Script.stdout out = [Api.body response]
    /\ Script.exit_code out = 0%Z.
Proof.
  intros L N P. rewrite do_GET_steps, P. cbv zeta.
  unfold Script.main. apply Nat.ltb_ge in L. rewrite L. unfold bind.
  destruct (nth 1 argv []) as [|c v] eqn:E; [congruence|]. cbn [truthy is_empty negb].
  destruct (api (VStr (c :: v)) (world st)) as [[entries|e|b] w] eqn:F;
    [ | |now destruct (capability_raises_Exception _ _ _ F)].
  - rewrite (api_returns _ _ _ F), (script_returns _ _ _ F). do 3 eexists. repeat split.
  - rewrite (api_raises _ _ _ F), (script_raises _ _ _ F). do 3 eexists. repeat split.
Qed.

End ServiceFacts.


(* ================================================================== *)
(** * Examples of the further properties *)
(* ================================================================== *)

Lemma example_word_count_adds_up :
  exists result st',
    Api.fetch_transcript true Scenario.hello_world Scenario.abc123 Scenario.start_state
    = (Ok result, st')
    /\ dict_get (lit "wordCount") result
       = VInt (fold_right Z.add 0%Z
                 (map (fun entry => Spec.token_count (text entry))
                      [ mkEntry 0%float 2.5%float (lit "Hello");
                        mkEntry 2.5%float 1%float (lit "world") ])).
Proof. eapply word_count_adds_up. reflexivity. Defined.

Lemma example_full_text_length :
  exists result st' full_text,
    Api.fetch_transcript true Scenario.hello_world Scenario.abc123 Scenario.start_state
    = (Ok result, st')
    /\ dict_get (lit "fullText") result = VStr full_text
    /\ List.length full_text
       = (fold_right Nat.add 0
            (map (fun entry => List.length (text entry))
                 [ mkEntry 0%float 2.5%float (lit "Hello");
                   mkEntry 2.5%float 1%float (lit "world") ])
          + (List.length [ mkEntry 0%float 2.5%float (lit "Hello");
                           mkEntry 2.5%float 1%float (lit "world") ] - 1))%nat.
Proof. eapply full_text_length. reflexivity. Defined.

Lemma example_word_count_zero_iff :
  exists result st',
    Api.fetch_transcript true Scenario.hello_world Scenario.abc123 Scenario.start_state
    = (Ok result, st')
    /\ (dict_get (lit "wordCount") result = VInt 0
        <-> forall entry,
              In entry [ mkEntry 0%float 2.5%float (lit "Hello");
                         mkEntry 2.5%float 1%float (lit "world") ] ->
              forallb isspace (text entry) = true).
Proof. eapply word_count_zero_iff. reflexivity. Defined.


Lemma example_do_POST_status :
  exists response st',
    Api.do_POST true Scenario.failing Fixture.loads (Fixture.post Fixture.body_abc)
      Scenario.start_state = (Ok response, st')
    /\ ((Api.status response = 200%Z /\ Spec.success (Api.body response) = VBool true)
        \/ (Api.status response = 400%Z /\ Spec.success (Api.body response) = VBool false)).
Proof.
  do 2 eexists. split; [cbv; reflexivity|].
  eapply (@do_POST_status unit Scenario.failing true Fixture.loads
            (Fixture.post Fixture.body_abc) Scenario.start_state).
  vm_compute. reflexivity.
Defined.




Lemma example_service_status :
  exists response st',
    Service.get_transcript Scenario.failing Scenario.get_abc123 Scenario.start_state
    = (Ok response, st')
    /\ ((Service.status response = 200%Z
         /\ Spec.success (Service.body response) = VBool true)
        \/ (Service.status response = 400%Z
            /\ Spec.success (Service.body response) = VBool false)).
Proof.
  do 2 eexists. split; [cbv; reflexivity|].
  eapply (@service_status unit Scenario.failing Scenario.get_abc123 Scenario.start_state).
  vm_compute. reflexivity.
Defined.

Lemma example_service_method_independent :
  Service.get_transcript Scenario.hello_world Scenario.get_abc123 Scenario.start_state
  = Service.get_transcript Scenario.hello_world Fixture.service_post_abc Scenario.start_state.
Proof.
  eapply service_method_independent with (v := lit "abc123");
    [discriminate|reflexivity|reflexivity|reflexivity|reflexivity].
Defined.

Lemma example_service_post_null :
  Service.get_transcript Scenario.hello_world Fixture.service_post_null Scenario.start_state
  = (Ok {| Service.status := 400;
           Service.body := VDict [ (lit "success", VBool false);
                                   (lit "error", VStr (lit "videoId parameter required")) ] |},
     Scenario.start_state).
Proof.
  eapply service_post_falsy_body; reflexivity.
Defined.

Lemma example_service_matches_do_GET :
  exists response st',
    Api.do_GET true Scenario.hello_world Fixture.params_abc Scenario.start_state
    = (Ok response, st')
    /\ Service.get_transcript Scenario.hello_world Scenario.get_abc123 Scenario.start_state
       = (Ok {| Service.status := Api.status response;
                Service.body := Api.body response |}, st').
Proof.
  eapply service_matches_do_GET; [discriminate|reflexivity].
Defined.

Lemma example_main_invokes :
  exists out st',
    Script.main Scenario.hello_world [lit "fetch-transcript.py"; []; lit "ignored"]
      Scenario.start_state = (Ok out, st')
    /\ calls st' = calls Scenario.start_state ++ [VStr []]
    /\ Script.main Scenario.hello_world [lit "fetch-transcript.py"; []]
         Scenario.start_state = (Ok out, st').
Proof.
  exact (@main_invokes_on_any_argument unit Scenario.hello_world
           [lit "fetch-transcript.py"; []; lit "ignored"] Scenario.start_state
           (le_S _ _ (le_n 2))).
Defined.

Lemma example_main_prints_GET_body :
  exists response out st',
    Api.do_GET true Scenario.failing Fixture.params_abc Scenario.start_state
    = (Ok response, st')
    /\ Script.main Scenario.failing [lit "fetch-transcript.py"; lit "abc123"]
         Scenario.start_state = (Ok out, st')
    /\ Script.stdout out = [Api.body response]
    /\ Script.exit_code out = 0%Z.
Proof.
  eapply main_prints_GET_body; [exact (le_n 2)|discriminate|reflexivity].
Defined.

(* ================================================================== *)
(** * The handlers on every request and every fetch function *)
(* ================================================================== *)

Section EveryRequest.

Variable World : Type.
Variable HAS_TRANSCRIPT_API : bool.
Variable api : fetch_fn World.
Variable json_loads : str -> res value.

Implicit Types (st : state World) (video_id : value).

(** How [fetch_transcript] ends, for any fetch function: with one of the
    three records, or with the exception outside [Exception] that the
    fetch raised. *)
Lemma fetch_transcript_ends video_id st :
  (exists result st',
     Api.fetch_transcript HAS_TRANSCRIPT_API api video_id st = (Ok result, st')
     /\ (HAS_TRANSCRIPT_API = false -> st' = st)
     /\ ((dict_get (lit "success") result = VBool true
          /\ (if truthy (dict_get (lit "success") result) then 200 else 400)%Z = 200%Z)
         \/ (dict_get (lit "success") result = VBool false
             /\ (if truthy (dict_get (lit "success") result) then 200 else 400)%Z = 400%Z))
     /\ forall b w, HAS_TRANSCRIPT_API = true ->
                    api video_id (world st) <> (RaiseBase b, w))
  \/ (exists b w,
        HAS_TRANSCRIPT_API = true
        /\ api video_id (world st) = (RaiseBase b, w)
        /\ Api.fetch_transcript HAS_TRANSCRIPT_API api video_id st
           = (RaiseBase b, Spec.after_fetch st video_id w)).
Proof.
  destruct HAS_TRANSCRIPT_API.
  - destruct (api video_id (world st)) as [[entries|e|b] w] eqn:F.
    + left. do 2 eexists. split; [exact (api_returns _ _ _ F)|].
      split; [discriminate|]. split; [left; split; reflexivity|]. discriminate.
    + left. do 2 eexists. split; [exact (api_raises _ _ _ F)|].
      split; [discriminate|]. split; [right; split; reflexivity|]. discriminate.
    + right. exists b, w. split; [reflexivity|]. split; [reflexivity|].
      exact (api_propagates _ _ _ F).
  - left. do 2 eexists. split; [reflexivity|].
    split; [reflexivity|]. split; [right; split; reflexivity|]. discriminate.
Qed.

Lemma answer_for_ends video_id st :
  ((exists response st', Reading.answer_for HAS_TRANSCRIPT_API api video_id st = (Ok response, st'))
   <-> (HAS_TRANSCRIPT_API = true ->
        forall b w, api video_id (world st) <> (RaiseBase b, w)))
  /\ (forall response st',
        Reading.answer_for HAS_TRANSCRIPT_API api video_id st = (Ok response, st') ->
        (HAS_TRANSCRIPT_API = false -> st' = st)
        /\ ((Api.status response = 200%Z
             /\ Spec.success (Api.body response) = VBool true)
            \/ (Api.status response = 400%Z
                /\ Spec.success (Api.body response) = VBool false)))
  /\ (forall outcome st',
        Reading.answer_for HAS_TRANSCRIPT_API api video_id st = (outcome, st') ->
        HAS_TRANSCRIPT_API = false -> st' = st).
Proof.
  unfold Reading.answer_for.
  destruct (fetch_transcript_ends video_id st)
    as [(result & s & -> & U & S & NB) | (b & w & H & F & ->)].
  - split; [split; [intros _; exact (fun h b w => NB b w h)|intros _; eauto]|].
    split.
    + intros response st' E. injection E as <- <-. split; [exact U|].
      cbn [Api.status Api.body Spec.success].
      destruct S as [[S ->] | [S ->]]; [left|right]; auto.
    + intros outcome st' E. injection E as _ <-. exact U.
  - split; [split|].
    + intros (response & st' & E). discriminate E.
    + intro NB. now destruct (NB H b w).
    + split; [intros response st' E; discriminate E|].
      intros outcome st' _ Hf. congruence.
Qed.

Lemma handler_do_GET_steps (parsed : res Api.query) st :
  Api.handler_do_GET HAS_TRANSCRIPT_API api parsed st
  = match parsed with
    | Ok params =>
        if negb (truthy (Api.params_first (lit "videoId") params)) then
          (Ok {| Api.status := 400;
                 Api.headers := [ (lit "Content-Type", lit "application/json") ];
                 Api.body :=
                   VDict [ (lit "success", VBool false);
                           (lit "error", VStr (lit "videoId parameter required")) ] |},
           st)
        else Reading.answer_for HAS_TRANSCRIPT_API api (Api.params_first (lit "videoId") params) st
    | Raise e => (Raise e, st)
    | RaiseBase b => (RaiseBase b, st)
    end.
Proof.
  unfold Api.handler_do_GET. unfold bind at 1, lift at 1.
  destruct parsed as [params|e|b]; [|reflexivity|reflexivity].
  unfold Api.do_GET, Reading.answer_for.
  destruct (truthy _); cbn [negb]; [|reflexivity].
  unfold bind. destruct (Api.fetch_transcript _ _ _ _) as [[result|e|b] st']; reflexivity.
Qed.

Lemma handler_do_POST_steps (req : Api.raw_post_request) st :
  Api.handler_do_POST HAS_TRANSCRIPT_API api json_loads req st
  = match Reading.length_of req with
    | Ok n =>
        match decode (Api.read n (Api.stream req)) with
        | Ok body =>
            match Reading.data_after_try json_loads body with
            | Ok data =>
                match value_get data (lit "videoId") with
                | Ok video_id =>
                    if negb (truthy video_id) then
                      (Ok {| Api.status := 400;
                             Api.headers :=
                               [ (lit "Content-Type", lit "application/json") ];
                             Api.body :=
                               VDict [ (lit "success", VBool false);
                                       (lit "error",
                                        VStr (lit "videoId required in request body")) ] |},
                       st)
                    else Reading.answer_for HAS_TRANSCRIPT_API api video_id st
                | Raise e => (Raise e, st)
                | RaiseBase b => (RaiseBase b, st)
                end
            | Raise e => (Raise e, st)
            | RaiseBase b => (RaiseBase b, st)
            end
        | Raise e => (Raise e, st)
        | RaiseBase b => (RaiseBase b, st)
        end
    | Raise e => (Raise e, st)
    | RaiseBase b => (RaiseBase b, st)
    end.
Proof.
  unfold Api.handler_do_POST, Reading.length_of. unfold bind at 1, lift at 1.
  destruct (match Api.content_length_header req with Some n => n | None => Ok 0%Z end)
    as [n|e|b]; [|reflexivity|reflexivity].
  unfold bind at 1, lift at 1.
  destruct (decode _) as [body|e|b]; [|reflexivity|reflexivity].
  unfold bind at 1, try_except_class, Reading.data_after_try.
  destruct (is_empty body); cbn [negb].
  - cbn [ret]. unfold bind at 1, lift at 1.
    destruct (value_get _ _) as [video_id|e|b]; [|reflexivity|reflexivity].
    unfold Reading.answer_for. destruct (truthy video_id); cbn [negb]; [|reflexivity].
    unfold bind. destruct (Api.fetch_transcript _ _ _ _) as [[result|e|b] st']; reflexivity.
  - unfold lift at 1. destruct (json_loads body) as [data|e|b]; [| |reflexivity].
    + unfold bind at 1, lift at 1.
      destruct (value_get _ _) as [video_id|e|b]; [|reflexivity|reflexivity].
      unfold Reading.answer_for. destruct (truthy video_id); cbn [negb]; [|reflexivity].
      unfold bind. destruct (Api.fetch_transcript _ _ _ _) as [[result|e'|b] st']; reflexivity.
    + destruct (is_JSONDecodeError e); [|reflexivity].
      cbn [ret]. unfold bind at 1, lift at 1. cbn [value_get dict_get dict_lookup truthy negb].
      reflexivity.
Qed.

(** X6.  [do_GET] answers exactly when [urlparse] accepts the request
    target and the fetch, if the handler gets to it, does not raise an
    exception outside [Exception]; in every other case it raises.  Each
    answer is 200 with [success: true] or 400 with [success: false]. *)
Theorem handler_do_GET_answers_iff (parsed : res Api.query) st :
  ((exists response st',
      Api.handler_do_GET HAS_TRANSCRIPT_API api parsed st = (Ok response, st'))
   <-> exists params,
         parsed = Ok params
         /\ (HAS_TRANSCRIPT_API = true ->
             truthy (Api.params_first (lit "videoId") params) = true ->
             forall b w,
               api (Api.params_first (lit "videoId") params) (world st)
               <> (RaiseBase b, w)))
  /\ forall response st',
       Api.handler_do_GET HAS_TRANSCRIPT_API api parsed st = (Ok response, st') ->
       (Api.status response = 200%Z /\ Spec.success (Api.body response) = VBool true)
       \/ (Api.status response = 400%Z /\ Spec.success (Api.body response) = VBool false).
Proof.
  rewrite handler_do_GET_steps.
  destruct parsed as [params|e|b0].
  - destruct (truthy (Api.params_first (lit "videoId") params)) eqn:T; cbn [negb].
    + destruct (answer_for_ends (Api.params_first (lit "videoId") params) st)
        as ([A1 A2] & S & _).
      split; [split|].
      * intro H. exists params. split; [reflexivity|]. intros Hh _. exact (A1 H Hh).
      * intros (p & E & H). injection E as <-. apply A2. intro Hh. now apply H.
      * intros response st' E. exact (proj2 (S _ _ E)).
    + split; [split|].
      * intros _. exists params. split; [reflexivity|]. intros _ F. congruence.
      * intros _. do 2 eexists. reflexivity.
      * intros response st' E. injection E as <- <-. right. split; reflexivity.
  - split; [split|]; [intros (r & s & E); discriminate E
                     |intros (p & E & _); discriminate E
                     |intros r s E; discriminate E].
  - split; [split|]; [intros (r & s & E); discriminate E
                     |intros (p & E & _); discriminate E
                     |intros r s E; discriminate E].
Qed.


End EveryRequest.

Section Unavailable.

Variable World : Type.
Variable api : fetch_fn World.
Variable json_loads : str -> res value.

Lemma answer_unavailable (video_id : value) (st : state World) :
  Reading.answer_for false api video_id st
  = (Ok {| Api.status := 400;
           Api.headers := [ (lit "Content-Type", lit "application/json");
                            (lit "Access-Control-Allow-Origin", lit "*") ];
           Api.body := VDict [ (lit "success", VBool false);
                               (lit "error",
                                VStr (lit "youtube-transcript-api not installed"));
                               (lit "errorType", VStr (lit "ImportError")) ] |},
     st).
Proof. reflexivity. Qed.

(** X22.  When the library did not load, the serverless function never
    invokes the capability and never answers 200: however [do_GET] or
    [do_POST] ends, the state is as before, and a response, if one is
    written, has status 400. *)
Theorem handlers_unavailable :
  (forall (parsed : res Api.query) (st : state World) outcome st',
     Api.handler_do_GET false api parsed st = (outcome, st') ->
     st' = st
     /\ forall response, outcome = Ok response -> Api.status response = 400%Z)
  /\ (forall (req : Api.raw_post_request) (st : state World) outcome st',
        Api.handler_do_POST false api json_loads req st = (outcome, st') ->
        st' = st
        /\ forall response, outcome = Ok response -> Api.status response = 400%Z).
Proof.
  split.
  - intros parsed st outcome st'. rewrite handler_do_GET_steps.
    destruct parsed as [params|e|b]; try (intro E; injection E as <- <-; split;
                                           [reflexivity|discriminate]).
    destruct (truthy _); cbn [negb]; rewrite ?answer_unavailable;
      intro E; injection E as <- <-; (split; [reflexivity|]);
      intros response R; injection R as <-; reflexivity.
  - intros req st outcome st'. rewrite handler_do_POST_steps.
    destruct (Reading.length_of req) as [n|e|b];
      try (intro E; injection E as <- <-; split; [reflexivity|discriminate]).
    destruct (decode _) as [body|e|b];
      try (intro E; injection E as <- <-; split; [reflexivity|discriminate]).
    destruct (Reading.data_after_try json_loads body) as [data|e|b];
      try (intro E; injection E as <- <-; split; [reflexivity|discriminate]).
    destruct (value_get data (lit "videoId")) as [video_id|e|b];
      try (intro E; injection E as <- <-; split; [reflexivity|discriminate]).
    destruct (truthy video_id); cbn [negb]; rewrite ?answer_unavailable;
      intro E; injection E as <- <-; (split; [reflexivity|]);
      intros response R; injection R as <-; reflexivity.
Qed.

End Unavailable.

Section ViewEveryRequest.

Variable World : Type.
Variable api : fetch_fn World.

Implicit Types (st : state World) (request : Service.request).

(** X16.  The Flask view returns a response exactly when it can read an
    identifier (the request is not a POST, or [get_json()] returns a
    falsy value or an object) and the fetch, if the view gets to it,
    does not raise an exception outside [Exception].  In every other
    case ([get_json()] raises or returns truthy JSON that is not an
    object, or the fetch raises such an exception) the view raises. *)
Theorem service_answers_iff request st :
  ((exists response st', Service.get_transcript api request st = (Ok response, st'))
   <-> exists video_id,
         Service.requested_id request = Ok video_id
         /\ (truthy video_id = true ->
             forall b w, api video_id (world st) <> (RaiseBase b, w)))
  /\ ((exists video_id, Service.requested_id request = Ok video_id)
      <-> Service.method request <> Service.POST
          \/ exists json,
               Service.get_json request = Ok json
               /\ (truthy json = false \/ exists d, json = VDict d)).
Proof.
  split.
  - destruct (Service.requested_id request) as [video_id|e0|b0] eqn:Hid.
    + destruct (truthy video_id) eqn:T.
      * destruct (api video_id (world st)) as [[entries|e|b] w] eqn:F.
        -- rewrite (service_returns _ _ _ Hid T F).
           split; [intros _; exists video_id; split; [reflexivity|]|eauto].
           intros _ b w' H. congruence.
        -- rewrite (service_raises _ _ _ Hid T F).
           split; [intros _; exists video_id; split; [reflexivity|]|eauto].
           intros _ b w' H. congruence.
        -- rewrite (service_propagates _ _ _ Hid T F).
           split; [intros (r & s & E); discriminate E|].
           intros (v & E & H). injection E as <-. now destruct (H T b w).
      * rewrite (service_missing api _ st Hid T).
        split; [intros _; exists video_id; split; [reflexivity|]|eauto].
        intro H. congruence.
    + rewrite (service_bad_request api _ st Hid).
      split; [intros (r & s & E); discriminate E|intros (v & E & _); discriminate E].
    + rewrite (service_bad_request_base api _ st Hid).
      split; [intros (r & s & E); discriminate E|intros (v & E & _); discriminate E].
  - unfold Service.requested_id.
    destruct (Service.method request);
      try (split; [intros _; left; discriminate|intros _; eauto]).
    destruct (Service.get_json request) as [json|e|b].
    + destruct (truthy json) eqn:T.
      * destruct json as [|b1|z|f|s|l|d]; cbn [value_get];
          try (split;
               [ intros (v & E); discriminate E
               | intros [H | (j & E & [H | (d & H)])];
                 [ now destruct H
                 | injection E as <-; congruence
                 | injection E as <-; discriminate H ] ]).
        split; [intros _; right; exists (VDict d); eauto|intros _; eauto].
      * cbn [value_get].
        split; [intros _; right; exists json; auto|intros _; eauto].
    + split; [intros (v & E); discriminate E|].
      intros [H | (j & E & _)]; [now destruct H|discriminate E].
    + split; [intros (v & E); discriminate E|].
      intros [H | (j & E & _)]; [now destruct H|discriminate E].
Qed.

End ViewEveryRequest.

(** [Api.do_GET] and [Api.do_POST] are the handlers on a request whose
    target parsed, whose Content-Length is absent or a natural number,
    and with a [json.loads] that fails with [JSONDecodeError] only. *)
Lemma do_GET_is_handler (World : Type) (HAS_TRANSCRIPT_API : bool) (api : fetch_fn World)
    (params : Api.query) (st : state World) :
  Api.handler_do_GET HAS_TRANSCRIPT_API api (Ok params) st
  = Api.do_GET HAS_TRANSCRIPT_API api params st.
Proof. reflexivity. Qed.

Lemma do_POST_is_handler (World : Type) (HAS_TRANSCRIPT_API : bool) (api : fetch_fn World)
    (json_loads : str -> option value) (req : Api.post_request) (st : state World) :
  Api.handler_do_POST HAS_TRANSCRIPT_API api (Api.loads_or_JSONDecodeError json_loads)
    (Api.as_raw req) st
  = Api.do_POST HAS_TRANSCRIPT_API api json_loads req st.
Proof.
  rewrite handler_do_POST_steps, do_POST_steps.
  assert (forall n, Api.read (Z.of_N n) (Api.rfile req)
                    = firstn (N.to_nat n) (Api.rfile req)) as R.
  { intro n. unfold Api.read.
    destruct (Z.ltb_spec (Z.of_N n) 0); [lia|]. f_equal. lia. }
  unfold Reading.length_of, Api.as_raw, Reading.body_bytes.
  cbn [Api.content_length_header Api.stream].
  destruct (Api.content_length req) as [n|]; [rewrite R|];
    (destruct (decode _) as [body|e|b]; [|reflexivity|reflexivity];
     unfold Reading.data_after_try, Reading.data_of, Api.loads_or_JSONDecodeError;
     destruct (is_empty body); cbn [negb];
     [ | destruct (json_loads body); [|cbn [is_JSONDecodeError] ] ];
     try reflexivity).
Qed.

(** The requests the restricted handlers leave out. *)
Example handler_examples :
  (* a request target that urlparse refuses *)
  Api.handler_do_GET true Scenario.hello_world
    (Raise (ValueError (lit "Invalid IPv6 URL"))) Scenario.start_state
  = (Raise (ValueError (lit "Invalid IPv6 URL")), Scenario.start_state)
  (* Content-Length: abc *)
  /\ Api.handler_do_POST true Scenario.hello_world
       (Api.loads_or_JSONDecodeError Fixture.loads) Fixture.post_bad_length
       Scenario.start_state
     = (Raise (ValueError (lit "invalid literal for int() with base 10: 'abc'")),
        Scenario.start_state)
  (* Content-Length: -1 reads the whole stream *)
  /\ (exists response st',
        Api.handler_do_POST true Scenario.hello_world
          (Api.loads_or_JSONDecodeError Fixture.loads) Fixture.post_negative_length
          Scenario.start_state = (Ok response, st')
        /\ Api.status response = 200%Z
        /\ calls st' = [Scenario.abc123])
  (* json.loads raising RecursionError *)
  /\ (exists e,
        Api.handler_do_POST true Scenario.hello_world Fixture.loads_too_deep
          (Api.as_raw (Fixture.post Fixture.body_abc)) Scenario.start_state
        = (Raise e, Scenario.start_state)
        /\ type_name e = lit "RecursionError").
Proof.
  split; [reflexivity|]. split; [reflexivity|].
  split; [do 2 eexists; split; [vm_compute; reflexivity|split; reflexivity]|].
  eexists. split; reflexivity.
Qed.
